(** * The MCP command-line client of the migration tool

    A shallow embedding of [mcp/examples/mcp_client.py]: the [MCPClient]
    class (request numbering, the subprocess round trip, the seven intents,
    the interactive loop) and [main], followed by the properties of the
    client's specification that are stated about them.

    Conventions.
    - A Python [str] is the list of its code points ([pystr]).
    - A value produced by [json.loads] is a [json]; Python's [None] is
      [JNull].
    - Everything the program observes from outside its own text (the
      filesystem test, the behaviour of each subprocess, the JSON decoder,
      the operator's keyboard) is a field of [World]; theorems quantify over
      every world.
    - What the program does to the outside (lines printed, subprocesses
      started with their request) is the list of [event]s it emits.
    - Python exceptions are the [Raise] results of a small state-and-error
      monad [M]; its state is the client object together with how far the
      run has got with the world.
    - Signals are taken only where the interactive loop waits for input.
    - Standard output encodes as UTF-8: printing text decoded from a
      response raises [UnicodeEncodeError] when it holds a lone surrogate
      ([print_decoded]). *)

From Stdlib Require Import String Ascii List ZArith NArith Bool Lia Sorted.
From Stdlib Require Import Floats.SpecFloat.
Import ListNotations.

Set Implicit Arguments.

(** ** Python strings and the builtins the client uses *)

Module Py.

Definition pystr := list N.

(** A literal of the source, read as code points (ASCII literals only; the
    symbols outside ASCII are written as code points below). *)
Definition lit (s : string) : pystr :=
  map N_of_ascii (list_ascii_of_string s).

Fixpoint eqb_str (a b : pystr) : bool :=
  match a, b with
  | [], [] => true
  | x :: a', y :: b' => (x =? y)%N && eqb_str a' b'
  | _, _ => false
  end.

(** [x in [a, b, ...]] for strings. *)
Definition mem_str (x : pystr) (l : list pystr) : bool :=
  existsb (eqb_str x) l.

(** [str.isspace] of one code point: the whitespace that [str.strip()]
    removes. *)
Definition isspace (c : N) : bool :=
  ((0x09 <=? c) && (c <=? 0x0D) || (0x1C <=? c) && (c <=? 0x20)
   || (c =? 0x85) || (c =? 0xA0) || (c =? 0x1680)
   || (0x2000 <=? c) && (c <=? 0x200A)
   || (c =? 0x2028) || (c =? 0x2029) || (c =? 0x202F) || (c =? 0x205F)
   || (c =? 0x3000))%N.

Fixpoint lstrip (s : pystr) : pystr :=
  match s with
  | c :: t => if isspace c then lstrip t else s
  | [] => []
  end.

Fixpoint rstrip (s : pystr) : pystr :=
  match s with
  | c :: t =>
      match rstrip t with
      | [] => if isspace c then [] else [c]
      | t' => c :: t'
      end
  | [] => []
  end.

(** [s.strip()] *)
Definition strip (s : pystr) : pystr := lstrip (rstrip s).

(** [s.startswith(p)] *)
Fixpoint startswith (p s : pystr) : bool :=
  match p, s with
  | [], _ => true
  | x :: p', y :: s' => (x =? y)%N && startswith p' s'
  | _ :: _, [] => false
  end.

(** [s.split(sep, maxsplit)] for a one-character separator: at most
    [maxsplit] cuts, from the left, empty pieces kept. *)
Fixpoint split (sep : N) (maxsplit : nat) (s : pystr) : list pystr :=
  match s with
  | [] => [[]]
  | c :: t =>
      if (0 <? maxsplit)%nat && (c =? sep)%N
      then [] :: split sep (pred maxsplit) t
      else match split sep maxsplit t with
           | h :: r => (c :: h) :: r
           | [] => [[c]]
           end
  end.

(** [sep.join(l)] *)
Fixpoint join (sep : pystr) (l : list pystr) : pystr :=
  match l with
  | [] => []
  | [x] => x
  | x :: r => x ++ sep ++ join sep r
  end.

(** [needle in hay] for two strings. *)
Fixpoint substring (needle hay : pystr) : bool :=
  startswith needle hay ||
  match hay with
  | [] => false
  | _ :: t => substring needle t
  end.

(** A surrogate code point: the UTF-8 codec refuses a string that holds
    one. *)
Definition is_surrogate (c : N) : bool :=
  ((0xD800 <=? c) && (c <=? 0xDFFF))%N.

Definition SPACE : N := 0x20.
Definition NL : N := 0x0A.
Definition QUOTE : N := 0x22.

(** *** Values decoded from JSON *)

#[local] Set Warnings "-register-all".

Inductive json :=
| JNull
| JBool (b : bool)
| JInt (z : Z)
| JFloat (f : spec_float)
| JStr (s : pystr)
| JList (l : list json)
| JDict (d : list (pystr * json)).

#[local] Set Warnings "register-all".

(** The exceptions that can leave the client's own code. *)
Inductive exn :=
| AttributeError
| TypeError
| KeyError
| IndexError
| UnicodeEncodeError
| SystemExit (code : Z).

Inductive result (A : Type) :=
| Ok (a : A)
| Raise (e : exn).
Arguments Ok {A} a.
Arguments Raise {A} e.

(** Truth value of an object, as [if x] and [x and y] test it. *)
Definition truthy (v : json) : bool :=
  match v with
  | JNull => false
  | JBool b => b
  | JInt z => negb (z =? 0)%Z
  | JFloat (S754_zero _) => false
  | JFloat _ => true
  | JStr s => match s with [] => false | _ => true end
  | JList l => match l with [] => false | _ => true end
  | JDict d => match d with [] => false | _ => true end
  end.

Fixpoint lookup (key : pystr) (d : list (pystr * json)) : option json :=
  match d with
  | [] => None
  | (k, v) :: d' => if eqb_str key k then Some v else lookup key d'
  end.

Definition is_str (s : pystr) (v : json) : bool :=
  match v with
  | JStr s' => eqb_str s s'
  | _ => false
  end.

(** [key in v] for a string [key]. *)
Definition contains (key : pystr) (v : json) : result bool :=
  match v with
  | JDict d => Ok (match lookup key d with Some _ => true | None => false end)
  | JList l => Ok (existsb (is_str key) l)
  | JStr s => Ok (substring key s)
  | _ => Raise TypeError
  end.

(** [v[key]] for a string [key]. *)
Definition getitem (v : json) (key : pystr) : result json :=
  match v with
  | JDict d => match lookup key d with Some x => Ok x | None => Raise KeyError end
  | _ => Raise TypeError
  end.

(** [v[0]] *)
Definition getitem0 (v : json) : result json :=
  match v with
  | JList (x :: _) => Ok x
  | JList [] => Raise IndexError
  | JStr (c :: _) => Ok (JStr [c])
  | JStr [] => Raise IndexError
  | JDict _ => Raise KeyError
  | _ => Raise TypeError
  end.

(** [v.get(key, default)] *)
Definition get (v : json) (key : pystr) (default : json) : result json :=
  match v with
  | JDict d => Ok (match lookup key d with Some x => x | None => default end)
  | _ => Raise AttributeError
  end.

(** [len(v)] *)
Definition len (v : json) : result nat :=
  match v with
  | JStr s => Ok (length s)
  | JList l => Ok (length l)
  | JDict d => Ok (length d)
  | _ => Raise TypeError
  end.

(** The items that [for x in v] visits. *)
Definition iter (v : json) : result (list json) :=
  match v with
  | JList l => Ok l
  | JStr s => Ok (map (fun c => JStr [c]) s)
  | JDict d => Ok (map (fun kv => JStr (fst kv)) d)
  | _ => Raise TypeError
  end.

(** [s + v] for a string [s]. *)
Definition concat (s : pystr) (v : json) : result pystr :=
  match v with
  | JStr t => Ok (s ++ t)
  | _ => Raise TypeError
  end.

End Py.
Import Py.

(** ** The world outside, and what the program does to it *)

(** What one [subprocess.Popen(...)] followed by [process.communicate(...)]
    comes to. *)
Inductive completion :=
| FileNotFoundError
| OtherException (e : pystr)
| Communicated (stdout stderr : pystr).

(** What [json.loads] comes to: a value, the [JSONDecodeError] of the inner
    handler, or another exception, left to the outer handler. *)
Inductive decoded :=
| Loaded (v : json)
| JSONDecodeError (e : pystr)
| LoadsRaised (e : pystr).

(** What one [input("mcp> ")] comes to.  Past the end of the list there is
    nothing but end of input. *)
Inductive keystroke :=
| Line (s : pystr)
| KeyboardInterrupt
| EOFError.

Record World := {
  path_exists : pystr -> bool;       (* os.path.exists *)
  popen : nat -> completion;         (* the n-th subprocess of the run *)
  json_loads : pystr -> decoded;     (* json.loads *)
  keyboard : list keystroke          (* what the operator will type *)
}.

(** The request dictionary built by [_run_mcp_request]. *)
Record Request := {
  jsonrpc : pystr;
  id : Z;
  method : pystr;
  params : json
}.

(** A piece of a printed line: text, or [str(v)] of a decoded value placed
    in an f-string. *)
Inductive frag :=
| Text (s : pystr)
| Str (v : json).

Inductive event :=
| Stdout (line : list frag)                    (* print(...) *)
| Stderr (line : list frag)                    (* print(..., file=sys.stderr) *)
| Prompt (p : pystr)                           (* the prompt of input(p) *)
| Spawn (argv : list pystr) (request : Request).
    (* Popen(argv) and communicate(json.dumps(request) + newline) *)

(** ** The client object and the monad of its methods *)

Record MCPClient := {
  mcp_binary_path : pystr;
  request_id : Z
}.

(** [MCPClient.__init__] *)
Definition __init__ (path : pystr) : MCPClient :=
  {| mcp_binary_path := path; request_id := 0 |}.

(** The client object, and how far the run has got with the world: the
    subprocesses started so far and the input not read yet. *)
Record State := {
  self : MCPClient;
  spawned : nat;
  stdin : list keystroke
}.

Record Reply (A : Type) := {
  outcome : result A;
  after : State;
  emitted : list event
}.

Definition M (A : Type) : Type := State -> Reply A.

Definition ret {A} (a : A) : M A :=
  fun st => {| outcome := Ok a; after := st; emitted := [] |}.

Definition raise {A} (e : exn) : M A :=
  fun st => {| outcome := Raise e; after := st; emitted := [] |}.

Definition bind {A B} (m : M A) (k : A -> M B) : M B :=
  fun st =>
    let r := m st in
    match outcome r with
    | Ok a =>
        let r' := k a (after r) in
        {| outcome := outcome r'; after := after r';
           emitted := emitted r ++ emitted r' |}
    | Raise e => {| outcome := Raise e; after := after r; emitted := emitted r |}
    end.

Declare Scope py_scope.
Delimit Scope py_scope with py.
Notation "x <- m ;; k" := (bind m (fun x => k))
  (at level 100, m at next level, right associativity) : py_scope.
Notation "m ;; k" := (bind m (fun _ => k))
  (at level 100, right associativity) : py_scope.
Open Scope py_scope.

Definition lift {A} (r : result A) : M A :=
  match r with
  | Ok a => ret a
  | Raise e => raise e
  end.

Definition emit (e : event) : M unit :=
  fun st => {| outcome := Ok tt; after := st; emitted := [e] |}.

(** [print(...)] of a line made of literals of the source and of text that
    the operator gave (arguments, input lines): text that came in through
    the operator's terminal, which standard output takes. *)
Definition print (line : list frag) : M unit := emit (Stdout line).

(** [print(..., file=sys.stderr)]: standard error replaces what it cannot
    encode and raises nothing. *)
Definition eprint (line : list frag) : M unit := emit (Stderr line).

(** What standard output (UTF-8, strict) can encode: every string but one
    that holds a surrogate.  [str(v)] of a string is the string itself; of
    any other decoded value it is plain ASCII, surrogates escaped. *)
Definition encodable (s : pystr) : bool :=
  forallb (fun c => negb (is_surrogate c)) s.

Definition encodable_frag (f : frag) : bool :=
  match f with
  | Text s => encodable s
  | Str (JStr s) => encodable s
  | Str _ => true
  end.

(** [print(...)] of a line that holds text decoded from the response of the
    server, where [json.loads] can have put a lone surrogate: the line is
    written whole, or [UnicodeEncodeError] is raised and nothing is
    written. *)
Definition print_decoded (line : list frag) : M unit :=
  if forallb encodable_frag line then emit (Stdout line)
  else raise UnicodeEncodeError.

(** [sys.exit(code)] *)
Definition sys_exit {A} (code : Z) : M A := raise (SystemExit code).

(** [for x in l: body(x)] *)
Fixpoint for_each {A} (l : list A) (body : A -> M unit) : M unit :=
  match l with
  | [] => ret tt
  | x :: r => body x ;; for_each r body
  end.

(** Start a subprocess on [argv], hand it the request, wait for it. *)
Definition communicate (w : World) (argv : list pystr) (request : Request)
  : M completion :=
  fun st =>
    {| outcome := Ok (popen w (spawned st));
       after := {| self := self st; spawned := S (spawned st);
                   stdin := stdin st |};
       emitted := [Spawn argv request] |}.

(** *** Transport *)

Definition _next_id : M Z :=
  fun st =>
    let i := (request_id (self st) + 1)%Z in
    {| outcome := Ok i;
       after := {| self := {| mcp_binary_path := mcp_binary_path (self st);
                              request_id := i |};
                   spawned := spawned st; stdin := stdin st |};
       emitted := [] |}.

Definition get_binary_path : M pystr :=
  fun st => {| outcome := Ok (mcp_binary_path (self st)); after := st;
               emitted := [] |}.

(** [params or {}] *)
Definition params_or_empty (params : option json) : json :=
  match params with
  | Some p => if truthy p then p else JDict []
  | None => JDict []
  end.

Definition _run_mcp_request (w : World) (method : pystr)
  (params : option json) : M json :=
  i <- _next_id ;;
  let request := {| jsonrpc := lit "2.0"; id := i; method := method;
                    params := params_or_empty params |} in
  path <- get_binary_path ;;
  c <- communicate w [path; lit "mcp"; lit "--with-examples"] request ;;
  match c with
  | Communicated stdout stderr =>
      (match strip stderr with
       | [] => ret tt
       | err => eprint [Text (lit "MCP Server Error: " ++ err)]
       end) ;;
      match strip stdout with
      | [] => eprint [Text (lit "No response from MCP server")] ;; ret JNull
      | out =>
          match json_loads w out with
          | Loaded v => ret v
          | JSONDecodeError e =>
              eprint [Text (lit "Failed to parse JSON response: " ++ e)] ;;
              eprint [Text (lit "Raw response: " ++ stdout)] ;;
              ret JNull
          | LoadsRaised e =>
              eprint [Text (lit "Error running MCP request: " ++ e)] ;;
              ret JNull
          end
      end
  | FileNotFoundError =>
      eprint [Text (lit "MCP binary not found at " ++ path)] ;;
      eprint [Text (lit "Build the binary with: make build")] ;;
      ret JNull
  | OtherException e =>
      eprint [Text (lit "Error running MCP request: " ++ e)] ;;
      ret JNull
  end.

(** *** The intents of the dispatcher *)

Definition CHECK_MARK : N := 0x2705.
Definition CROSS_MARK : N := 0x274C.
Definition CLIPBOARD : N := 0x1F4CB.
Definition WRENCH : N := 0x1F527.
Definition ROCKET : N := 0x1F680.
Definition WAVING_HAND : N := 0x1F44B.

(** [response and 'result' in response] *)
Definition has_result (response : json) : result bool :=
  if truthy response then contains (lit "result") response else Ok false.

Definition initialize (w : World) : M bool :=
  print [Text (lit "Initializing MCP server...")] ;;
  response <- _run_mcp_request w (lit "initialize") None ;;
  ok <- lift (has_result response) ;;
  if ok then
    res <- lift (getitem response (lit "result")) ;;
    server_info <- lift (get res (lit "serverInfo") (JDict [])) ;;
    name <- lift (get server_info (lit "name") (JStr (lit "mongo-essential"))) ;;
    version <- lift (get server_info (lit "version") (JStr (lit "unknown"))) ;;
    print_decoded [Text (CHECK_MARK :: lit " Connected to "); Str name;
                   Text (lit " v"); Str version] ;;
    ret true
  else
    print [Text (CROSS_MARK :: lit " Failed to initialize MCP server")] ;;
    ret false.

Definition list_tools (w : World) : M bool :=
  print [Text (lit "Listing available tools...")] ;;
  response <- _run_mcp_request w (lit "tools/list") None ;;
  ok <- lift (has_result response) ;;
  if ok then
    res <- lift (getitem response (lit "result")) ;;
    tools <- lift (get res (lit "tools") (JList [])) ;;
    n <- lift (len tools) ;;
    print [Text (NL :: CLIPBOARD :: lit " Available Tools (");
           Str (JInt (Z.of_nat n)); Text (lit "):")] ;;
    print [Text (repeat 0x3D%N 50)] ;;
    items <- lift (iter tools) ;;
    for_each items (fun tool =>
      name <- lift (getitem tool (lit "name")) ;;
      print_decoded [Text (WRENCH :: lit " "); Str name] ;;
      description <- lift (getitem tool (lit "description")) ;;
      print_decoded [Text (lit "   "); Str description] ;;
      print []) ;;
    ret true
  else
    print [Text (CROSS_MARK :: lit " Failed to list tools")] ;;
    ret false.

(** The handling of the reply that the five [tools/call] intents repeat
    word for word, up to the default text and the failure message:
<<
        if response and 'result' in response:
            content = response['result'].get('content', [])
            if content and len(content) > 0:
                print("\n" + content[0].get('text', default))
                return True
        print(failure)
        return False
>> *)
Definition report_content (response : json) (default failure : pystr)
  : M bool :=
  ok <- lift (has_result response) ;;
  shown <-
    (if ok then
       res <- lift (getitem response (lit "result")) ;;
       content <- lift (get res (lit "content") (JList [])) ;;
       nonempty <- lift (if truthy content
                         then match len content with
                              | Ok n => Ok (0 <? n)%nat
                              | Raise e => Raise e
                              end
                         else Ok false) ;;
       if nonempty then
         first <- lift (getitem0 content) ;;
         text <- lift (get first (lit "text") (JStr default)) ;;
         line <- lift (concat [NL] text) ;;
         print_decoded [Text line] ;;
         ret true
       else ret false
     else ret false) ;;
  if shown then ret true
  else print [Text failure] ;; ret false.

(** The [params] of a [tools/call] request. *)
Definition tool_call (name : pystr) (arguments : list (pystr * json)) : json :=
  JDict [(lit "name", JStr name); (lit "arguments", JDict arguments)].

Definition migration_status (w : World) : M bool :=
  print [Text (lit "Getting migration status...")] ;;
  response <- _run_mcp_request w (lit "tools/call")
                (Some (tool_call (lit "migration_status") [])) ;;
  report_content response (lit "No status available")
    (CROSS_MARK :: lit " Failed to get migration status").

(** [if version] for an optional string. *)
Definition given (version : option pystr) : option pystr :=
  match version with
  | Some (c :: v) => Some (c :: v)
  | _ => None
  end.

Definition migration_up (w : World) (version : option pystr) : M bool :=
  let args := match given version with
              | Some v => [(lit "version", JStr v)]
              | None => []
              end in
  let action := match given version with
                | Some v => lit "up to version " ++ v
                | None => lit "up (all pending)"
                end in
  print [Text (lit "Running migrations " ++ action ++ lit "...")] ;;
  response <- _run_mcp_request w (lit "tools/call")
                (Some (tool_call (lit "migration_up") args)) ;;
  report_content response (lit "Migration completed")
    (CROSS_MARK :: lit " Failed to run migrations").

Definition migration_down (w : World) (version : option pystr) : M bool :=
  let args := match given version with
              | Some v => [(lit "version", JStr v)]
              | None => []
              end in
  let action := match given version with
                | Some v => lit "down to version " ++ v
                | None => lit "down (last migration)"
                end in
  print [Text (lit "Rolling back migrations " ++ action ++ lit "...")] ;;
  response <- _run_mcp_request w (lit "tools/call")
                (Some (tool_call (lit "migration_down") args)) ;;
  report_content response (lit "Migration rolled back")
    (CROSS_MARK :: lit " Failed to roll back migrations").

Definition create_migration (w : World) (name description : pystr) : M bool :=
  print [Text (lit "Creating migration: " ++ name)] ;;
  response <- _run_mcp_request w (lit "tools/call")
                (Some (tool_call (lit "migration_create")
                         [(lit "name", JStr name);
                          (lit "description", JStr description)])) ;;
  report_content response (lit "Migration created")
    (CROSS_MARK :: lit " Failed to create migration").

Definition list_migrations (w : World) : M bool :=
  print [Text (lit "Listing registered migrations...")] ;;
  response <- _run_mcp_request w (lit "tools/call")
                (Some (tool_call (lit "migration_list") [])) ;;
  report_content response (lit "No migrations found")
    (CROSS_MARK :: lit " Failed to list migrations").

(** *** Interactive mode *)

Definition help_text : pystr :=
  join [NL]
    [[];
     lit "Available commands:";
     lit "  help                     - Show this help";
     lit "  tools                    - List available MCP tools";
     lit "  status                   - Get migration status";
     lit "  up [version]             - Apply migrations (optionally up to version)";
     lit "  down [version]           - Roll back migrations (optionally to version)";
     lit "  create <name> <desc>     - Create a new migration";
     lit "  list                     - List all registered migrations";
     lit "  quit/exit/q              - Exit interactive mode";
     [];
     lit "Examples:";
     lit "  status                   - Check what migrations are applied";
     lit "  up                       - Apply all pending migrations";
     lit "  up 20240101_001          - Apply migrations up to specific version";
     lit "  down                     - Roll back the last applied migration";
     lit "  create add_index " ++ [QUOTE] ++ lit "Add user email index"
       ++ [QUOTE] ++ lit " - Create a new migration";
     []].

Definition _print_help : M unit := print [Text help_text].

Definition usage : pystr := lit "Usage: create <name> <description>".

(** [l[i]] *)
Definition item {A} (l : list A) (i : nat) : M A :=
  match nth_error l i with
  | Some x => ret x
  | None => raise IndexError
  end.

(** How one turn of the loop ends: [break], [continue], or falling out of
    the [if] chain to the [print()] that spaces the commands. *)
Inductive flow := Break | Continue | Next.

(** The body of the loop after [command = input("mcp> ").strip()]. *)
Definition interactive_command (w : World) (command : pystr) : M flow :=
  if mem_str command [lit "quit"; lit "exit"; lit "q"] then
    print [Text (lit "Goodbye! " ++ [WAVING_HAND])] ;; ret Break
  else if mem_str command [lit "help"; lit "h"] then
    _print_help ;; ret Next
  else if eqb_str command (lit "tools") then
    list_tools w ;; ret Next
  else if eqb_str command (lit "status") then
    migration_status w ;; ret Next
  else if eqb_str command (lit "up") then
    migration_up w None ;; ret Next
  else if startswith (lit "up ") command then
    version <- item (split SPACE 1 command) 1 ;;
    migration_up w (Some version) ;; ret Next
  else if eqb_str command (lit "down") then
    migration_down w None ;; ret Next
  else if startswith (lit "down ") command then
    version <- item (split SPACE 1 command) 1 ;;
    migration_down w (Some version) ;; ret Next
  else if startswith (lit "create ") command then
    let parts := split SPACE 2 command in
    if (length parts <? 3)%nat then
      print [Text usage] ;; ret Next
    else
      rest <- item parts 2 ;;
      let name_desc := split SPACE 1 rest in
      if (length name_desc <? 2)%nat then
        print [Text usage] ;; ret Next
      else
        name <- item name_desc 0 ;;
        description <- item name_desc 1 ;;
        create_migration w name description ;; ret Next
  else if eqb_str command (lit "list") then
    list_migrations w ;; ret Next
  else if eqb_str command [] then
    ret Continue
  else
    print [Text (lit "Unknown command: " ++ command
                 ++ lit ". Type 'help' for available commands.")] ;;
    ret Next.

Definition farewell : M unit :=
  print [Text (NL :: lit "Goodbye! " ++ [WAVING_HAND])].

(** The input that is still to come, and what the loop leaves of it. *)
Definition pending : M (list keystroke) :=
  fun st => {| outcome := Ok (stdin st); after := st; emitted := [] |}.

Definition leave (rest : list keystroke) : M unit :=
  fun st =>
    {| outcome := Ok tt;
       after := {| self := self st; spawned := spawned st; stdin := rest |};
       emitted := [] |}.

(** The [while True] loop, over the input that is still to come.  An
    interrupt is taken where the loop waits for input. *)
Fixpoint command_loop (w : World) (keys : list keystroke) : M unit :=
  emit (Prompt (lit "mcp> ")) ;;
  match keys with
  | Line s :: rest =>
      f <- interactive_command w (strip s) ;;
      match f with
      | Break => leave rest
      | Continue => command_loop w rest
      | Next => print [] ;; command_loop w rest
      end
  | KeyboardInterrupt :: rest => farewell ;; leave rest
  | EOFError :: rest => farewell ;; leave rest
  | [] => farewell ;; leave []
  end.

Definition interactive_mode (w : World) : M unit :=
  print [Text (ROCKET :: lit " MongoDB Migration MCP Client - Interactive Mode")] ;;
  print [Text (lit "Type 'help' for available commands, 'quit' to exit")] ;;
  print [] ;;
  ok <- initialize w ;;
  if negb ok then ret tt
  else
    keys <- pending ;;
    command_loop w keys.

(** *** The entry point *)

(** The [choices] of the positional [command]. *)
Inductive Command :=
| init | tools | status | up | down | create | list_ | interactive.

(** The namespace that [parser.parse_args()] returns. *)
Record Namespace := {
  binary : pystr;
  command : option Command;
  args : list pystr
}.

(** [client = MCPClient(args.binary)] *)
Definition new_client (path : pystr) : M unit :=
  fun st =>
    {| outcome := Ok tt;
       after := {| self := __init__ path; spawned := spawned st;
                   stdin := stdin st |};
       emitted := [] |}.

Definition main (w : World) (a : Namespace) : M unit :=
  if negb (path_exists w (binary a)) then
    print [Text (lit "Error: Binary not found at " ++ binary a)] ;;
    print [Text (lit "Build it with: make build")] ;;
    sys_exit 1
  else
    new_client (binary a) ;;
    match command a with
    | None | Some interactive => interactive_mode w
    | Some c =>
        let needs_init := match c with init => false | _ => true end in
        (if needs_init then
           ok <- initialize w ;;
           if negb ok then sys_exit 1 else ret tt
         else ret tt) ;;
        success <-
          match c with
          | init => initialize w
          | tools => list_tools w
          | status => migration_status w
          | up => migration_up w (hd_error (args a))
          | down => migration_down w (hd_error (args a))
          | create =>
              if (length (args a) <? 2)%nat then
                print [Text usage] ;; sys_exit 1
              else
                name <- item (args a) 0 ;;
                create_migration w name (join [SPACE] (tl (args a)))
          | list_ => list_migrations w
          | interactive => ret false
          end ;;
        sys_exit (if success then 0 else 1)
    end.

(** The module as a script.  The file ends with the guarded call of [main]
    written twice, so [main] is called again when its first call returns
    (it returns from interactive mode only: on a one-shot command it always
    leaves through [sys.exit]). *)
Definition __main__ (w : World) (a : Namespace) : M unit :=
  main w a ;;
  main w a.

(** The state in which the process starts: no subprocess yet, all the input
    still to come.  There is no client yet; the field holds one that [main]
    replaces before any use. *)
Definition boot (w : World) : State :=
  {| self := __init__ []; spawned := 0; stdin := keyboard w |}.

(** One run of the program. *)
Definition run (w : World) (a : Namespace) : Reply unit :=
  __main__ w a (boot w).

(** The exit status of the process: the argument of [sys.exit], 0 when
    [main] returns, 1 when an exception is not caught. *)
Definition exit_status (r : Reply unit) : Z :=
  match outcome r with
  | Ok _ => 0
  | Raise (SystemExit code) => code
  | Raise _ => 1
  end.

Definition uncaught (r : Reply unit) : bool :=
  match outcome r with
  | Raise (SystemExit _) => false
  | Raise _ => true
  | Ok _ => false
  end.

(** ** Reading a run *)

Fixpoint requests (t : list event) : list Request :=
  match t with
  | Spawn _ r :: t' => r :: requests t'
  | _ :: t' => requests t'
  | [] => []
  end.

Definition ids (t : list event) : list Z := map id (requests t).

Definition printed (t : list event) : list (list frag) :=
  flat_map (fun e => match e with Stdout l => [l] | _ => [] end) t.

(** A printed line that reports a failure to the operator. *)
Definition failure_line (line : list frag) : bool :=
  match line with
  | Text s :: _ =>
      startswith [CROSS_MARK] s || startswith (lit "Usage:") s
      || startswith (lit "Error:") s
  | _ => false
  end.

Definition reports_failure (t : list event) : bool :=
  existsb failure_line (printed t).

(** ** Vocabulary of the properties *)

(** The [n] numbers that follow [a]. *)
Fixpoint count_from (a : Z) (n : nat) : list Z :=
  match n with
  | O => []
  | S k => (a + 1)%Z :: count_from (a + 1) k
  end.

(** A computation keeps the numbering when the ids of the requests it sends
    are the numbers that follow the counter it started from, the counter
    ends on the last of them, and the binary path is left alone. *)
Definition disciplined {A} (m : M A) : Prop :=
  forall st,
    let r := m st in
    let n := length (ids (emitted r)) in
    mcp_binary_path (self (after r)) = mcp_binary_path (self st)
    /\ ids (emitted r) = count_from (request_id (self st)) n
    /\ request_id (self (after r)) = (request_id (self st) + Z.of_nat n)%Z.

(** A run of consecutive Transport calls on one client. *)
Definition transport_calls (w : World) (calls : list (pystr * option json))
  : M unit :=
  for_each calls (fun c => _run_mcp_request w (fst c) (snd c) ;; ret tt).

(** The response that the round trip on the [n]-th subprocess of the run
    hands back to its caller ([JNull] for [None]), read off the code: it
    depends neither on the request nor on the client. *)
Definition answer (w : World) (n : nat) : json :=
  match outcome (_run_mcp_request w [] None
                   {| self := __init__ []; spawned := n; stdin := [] |}) with
  | Ok v => v
  | Raise _ => JNull
  end.

(** The client after one more request, and that request. *)
Definition next_state (st : State) : State :=
  {| self := {| mcp_binary_path := mcp_binary_path (self st);
                request_id := request_id (self st) + 1 |};
     spawned := S (spawned st); stdin := stdin st |}.

Definition request_of (st : State) (method : pystr) (params : json)
  : Request :=
  {| jsonrpc := lit "2.0"; id := request_id (self st) + 1;
     method := method; params := params |}.

(** A computation that starts no subprocess and leaves the client alone. *)
Definition silent {A} (m : M A) : Prop :=
  forall st, after (m st) = st /\ requests (emitted (m st)) = [].

Definition is_exit (e : exn) : bool :=
  match e with
  | SystemExit _ => true
  | _ => false
  end.

(** A result that is not a [sys.exit]. *)
Definition safe {A} (r : result A) : Prop :=
  match r with
  | Raise e => is_exit e = false
  | Ok _ => True
  end.

(** A computation that never calls [sys.exit]. *)
Definition no_exit {A} (m : M A) : Prop :=
  forall st, safe (outcome (m st)).

(** A computation that prints no failure line. *)
Definition clean {A} (m : M A) : Prop :=
  forall st, reports_failure (emitted (m st)) = false.

(** An intent tells the truth: when it returns [True] it has printed no
    failure line, when it returns [False] it has printed one. *)
Definition verdict (m : M bool) : Prop :=
  forall st,
    let r := m st in
    match outcome r with
    | Ok b => reports_failure (emitted r) = negb b
    | Raise _ => True
    end.

(** The seven intents of the dispatcher, with their arguments. *)
Inductive intent :=
| Initialize
| ListTools
| Status
| Apply (version : option pystr)
| Rollback (version : option pystr)
| Create (name description : pystr)
| ListMigrations.

Definition perform (w : World) (i : intent) : M bool :=
  match i with
  | Initialize => initialize w
  | ListTools => list_tools w
  | Status => migration_status w
  | Apply version => migration_up w version
  | Rollback version => migration_down w version
  | Create name description => create_migration w name description
  | ListMigrations => list_migrations w
  end.


(** The line on which each intent reports its failure. *)
Definition failure_message (i : intent) : pystr :=
  CROSS_MARK ::
  match i with
  | Initialize => lit " Failed to initialize MCP server"
  | ListTools => lit " Failed to list tools"
  | Status => lit " Failed to get migration status"
  | Apply _ => lit " Failed to run migrations"
  | Rollback _ => lit " Failed to roll back migrations"
  | Create _ _ => lit " Failed to create migration"
  | ListMigrations => lit " Failed to list migrations"
  end.

(** A response that is a mapping without a [result] key. *)
Definition lacks_result (v : json) : Prop :=
  exists d, v = JDict d /\ lookup (lit "result") d = None.

(** The line with which [initialize] greets a server whose [serverInfo]
    is [info]. *)
Definition greeting (info : list (pystr * json)) : list frag :=
  [Text (CHECK_MARK :: lit " Connected to ");
   Str match lookup (lit "name") info with
       | Some x => x
       | None => JStr (lit "mongo-essential")
       end;
   Text (lit " v");
   Str match lookup (lit "version") info with
       | Some x => x
       | None => JStr (lit "unknown")
       end].


(** A response to a tool call whose first content block carries [text]. *)
Definition well_formed_tool_result (v : json) (text : pystr) : Prop :=
  exists d res block more,
    v = JDict d /\ lookup (lit "result") d = Some (JDict res)
    /\ lookup (lit "content") res = Some (JList (JDict block :: more))
    /\ lookup (lit "text") block = Some (JStr text).

(** A word of an input line: not empty, no whitespace in it. *)
Definition token (t : pystr) : Prop :=
  t <> [] /\ forallb (fun c => negb (isspace c)) t = true.

(** The one-shot commands: every choice but [interactive]. *)
Definition one_shot (a : Namespace) : bool :=
  match command a with
  | None | Some interactive => false
  | Some _ => true
  end.

(** The request of the implicit [initialize]. *)
Definition initialize_request : Request :=
  {| jsonrpc := lit "2.0"; id := 1; method := lit "initialize";
     params := JDict [] |}.

(** Transport fails: the binary is missing, the start or the exchange
    raises, the subprocess writes nothing, or what it writes does not
    decode. *)
Definition transport_fails (w : World) (n : nat) : bool :=
  match popen w n with
  | FileNotFoundError => true
  | OtherException _ => true
  | Communicated stdout _ =>
      match strip stdout with
      | [] => true
      | out => match json_loads w out with
               | Loaded _ => false
               | _ => true
               end
      end
  end.

(** The parts of [main] on a one-shot command, named: the implicit
    [initialize] with its exit, the intent of the command, and the final
    [sys.exit]. *)
Definition gate (w : World) : M unit :=
  ok <- initialize w ;;
  if negb ok then sys_exit 1 else ret tt.

Definition body (w : World) (a : Namespace) (c : Command) : M bool :=
  match c with
  | init => initialize w
  | tools => list_tools w
  | status => migration_status w
  | up => migration_up w (hd_error (args a))
  | down => migration_down w (hd_error (args a))
  | create =>
      if (length (args a) <? 2)%nat then
        print [Text usage] ;; sys_exit 1
      else
        name <- item (args a) 0 ;;
        create_migration w name (join [SPACE] (tl (args a)))
  | list_ => list_migrations w
  | interactive => ret false
  end.

Definition finish (m : M bool) : M unit :=
  success <- m ;;
  sys_exit (if success then 0 else 1).

(** The state once [main] has built its client, and that state in the
    first call of [main]. *)
Definition fresh (a : Namespace) (st : State) : State :=
  {| self := __init__ (binary a); spawned := spawned st; stdin := stdin st |}.

Definition start (w : World) (a : Namespace) : State := fresh a (boot w).

(** The exit status is 0 exactly when nothing failed: no uncaught error and
    no failure line. *)
Definition settled (r : Reply unit) : Prop :=
  exit_status r = 0%Z
  <-> uncaught r = false /\ reports_failure (emitted r) = false.

(** ** Vocabulary of the further properties *)

(** The start of one round trip, as it shows in the run, and the warning
    that follows it when the subprocess wrote on standard error. *)
Definition spawn_event (st : State) (method : pystr) (params : option json)
  : event :=
  Spawn [mcp_binary_path (self st); lit "mcp"; lit "--with-examples"]
        (request_of st method (params_or_empty params)).

Definition warning (stderr : pystr) : list event :=
  match strip stderr with
  | [] => []
  | err => [Stderr [Text (lit "MCP Server Error: " ++ err)]]
  end.

Definition is_mapping (v : json) : bool :=
  match v with
  | JDict _ => true
  | _ => false
  end.

(** The five intents that call a tool and show its first content block. *)
Definition tool_intent (i : intent) : bool :=
  match i with
  | Initialize | ListTools => false
  | _ => true
  end.

(** The text each of them shows when the block has no [text]. *)
Definition default_text (i : intent) : pystr :=
  match i with
  | Status => lit "No status available"
  | Apply _ => lit "Migration completed"
  | Rollback _ => lit "Migration rolled back"
  | Create _ _ => lit "Migration created"
  | ListMigrations => lit "No migrations found"
  | Initialize | ListTools => []
  end.

(** The method and the params of the request of each intent. *)
Definition method_of (i : intent) : pystr :=
  match i with
  | Initialize => lit "initialize"
  | ListTools => lit "tools/list"
  | _ => lit "tools/call"
  end.

Definition version_argument (version : option pystr) : list (pystr * json) :=
  match version with
  | Some (c :: v) => [(lit "version", JStr (c :: v))]
  | _ => []
  end.

Definition params_of (i : intent) : json :=
  match i with
  | Initialize | ListTools => JDict []
  | Status => tool_call (lit "migration_status") []
  | Apply version => tool_call (lit "migration_up") (version_argument version)
  | Rollback version =>
      tool_call (lit "migration_down") (version_argument version)
  | Create name description =>
      tool_call (lit "migration_create")
        [(lit "name", JStr name); (lit "description", JStr description)]
  | ListMigrations => tool_call (lit "migration_list") []
  end.

(** The [serverInfo] mapping that [initialize] reads in a result: the one
    that is there, or the empty one when the key is missing. *)
Definition server_info_of (res : list (pystr * json))
  : option (list (pystr * json)) :=
  match lookup (lit "serverInfo") res with
  | Some (JDict info) => Some info
  | Some _ => None
  | None => Some []
  end.

(** The list of tools in a result, empty when the key is missing. *)
Definition tools_of (res : list (pystr * json)) : option (list json) :=
  match lookup (lit "tools") res with
  | Some (JList l) => Some l
  | Some _ => None
  | None => Some []
  end.

(** The [content] that a tool intent reads in a result, the empty list when
    the key is missing. *)
Definition content_of (res : list (pystr * json)) : json :=
  match lookup (lit "content") res with
  | Some c => c
  | None => JList []
  end.

(** A tool descriptor: a mapping with a [name] and a [description]. *)
Definition is_descriptor (t : json) : bool :=
  match t with
  | JDict fields =>
      match lookup (lit "name") fields, lookup (lit "description") fields with
      | Some _, Some _ => true
      | _, _ => false
      end
  | _ => false
  end.

Definition field (key : pystr) (t : json) : json :=
  match t with
  | JDict fields =>
      match lookup key fields with
      | Some x => x
      | None => JNull
      end
  | _ => JNull
  end.

(** The three lines that [list_tools] prints for one tool. *)
Definition tool_lines (t : json) : list (list frag) :=
  [[Text (WRENCH :: lit " "); Str (field (lit "name") t)];
   [Text (lit "   "); Str (field (lit "description") t)];
   []].


(** The prompts shown in a run. *)
Definition prompts (t : list event) : list pystr :=
  flat_map (fun e => match e with Prompt p => [p] | _ => [] end) t.


(** A computation that, run on a client for the binary at [path], keeps
    that path, emits only events that satisfy [P], and starts one subprocess
    for each request it sends. *)
Definition guarded (path : pystr) (P : event -> Prop) {A} (m : M A) : Prop :=
  forall st,
    mcp_binary_path (self st) = path ->
    let r := m st in
    mcp_binary_path (self (after r)) = path
    /\ Forall P (emitted r)
    /\ spawned (after r) = (spawned st + length (requests (emitted r)))%nat.

Definition no_prompt (e : event) : Prop :=
  match e with
  | Prompt _ => False
  | _ => True
  end.

(** How the loop ends on the input that is still to come, when it ends on
    its first turn: the farewell line it prints and the input it leaves. *)
Definition loop_end (keys : list keystroke)
  : option (list frag * list keystroke) :=
  match keys with
  | Line s :: rest =>
      if mem_str (strip s) [lit "quit"; lit "exit"; lit "q"]
      then Some ([Text (lit "Goodbye! " ++ [WAVING_HAND])], rest)
      else None
  | KeyboardInterrupt :: rest | EOFError :: rest =>
      Some ([Text (NL :: lit "Goodbye! " ++ [WAVING_HAND])], rest)
  | [] => Some ([Text (NL :: lit "Goodbye! " ++ [WAVING_HAND])], [])
  end.

(** ** Example worlds *)

Definition default_binary : pystr := lit "./build/mongo-essential".

Definition quoted (s : pystr) : pystr := QUOTE :: s ++ [QUOTE].

(** The text [{"result":{}}]. *)
Definition initialized_text : pystr :=
  lit "{" ++ quoted (lit "result") ++ lit ":{}}".

(** The text [{"result":{"content":[{"text":"Applied 20240101_001"}]}}]. *)
Definition applied_text : pystr :=
  lit "{" ++ quoted (lit "result") ++ lit ":{" ++ quoted (lit "content")
  ++ lit ":[{" ++ quoted (lit "text") ++ lit ":"
  ++ quoted (lit "Applied 20240101_001") ++ lit "}]}}".

(** [json.loads] on the texts that the example server writes. *)
Definition example_loads (s : pystr) : decoded :=
  if eqb_str s initialized_text then
    Loaded (JDict [(lit "result", JDict [])])
  else if eqb_str s applied_text then
    Loaded (JDict [(lit "result",
                    JDict [(lit "content",
                            JList [JDict [(lit "text",
                                           JStr (lit "Applied 20240101_001"))]])])])
  else if eqb_str s (lit "{}") then
    Loaded (JDict [])
  else
    JSONDecodeError (lit "Expecting value: line 1 column 1 (char 0)").

(** The binary is at its default path.  Its first run answers
    [initialize], its second a tool call, its third writes an empty
    mapping, and after that it cannot be started any more. *)
Definition example_world : World :=
  {| path_exists := fun p => eqb_str p default_binary;
     popen := fun n =>
       match n with
       | 0 => Communicated (initialized_text ++ [NL]) []
       | 1 => Communicated (applied_text ++ [NL]) []
       | 2 => Communicated (lit "{}" ++ [NL]) []
       | _ => FileNotFoundError
       end%nat;
     json_loads := example_loads;
     keyboard := [Line (lit "status"); Line (lit "quit")] |}.

(** The binary is there but writes nothing. *)
Definition mute_world : World :=
  {| path_exists := fun p => eqb_str p default_binary;
     popen := fun _ => Communicated [] [];
     json_loads := example_loads;
     keyboard := [Line (lit "quit")] |}.

Definition example_args (c : option Command) (l : list pystr) : Namespace :=
  {| binary := default_binary; command := c; args := l |}.




(** ** More example worlds *)

(** The text [{"result":5}]. *)
Definition number_text : pystr :=
  lit "{" ++ quoted (lit "result") ++ lit ":5}".

(** The text [{"result":{"content":[{}]}}]. *)
Definition bare_block_text : pystr :=
  lit "{" ++ quoted (lit "result") ++ lit ":{" ++ quoted (lit "content")
  ++ lit ":[{}]}}".

(** The text
    [{"result":{"tools":[{"name":"migration_status","description":"Show status"}]}}]. *)
Definition tools_text : pystr :=
  lit "{" ++ quoted (lit "result") ++ lit ":{" ++ quoted (lit "tools")
  ++ lit ":[{" ++ quoted (lit "name") ++ lit ":"
  ++ quoted (lit "migration_status") ++ lit "," ++ quoted (lit "description")
  ++ lit ":" ++ quoted (lit "Show status") ++ lit "}]}}".

(** The text
    [{"result":{"serverInfo":{"name":"mongo-essential","version":"1.2.0"}}}]. *)
Definition server_info_text : pystr :=
  lit "{" ++ quoted (lit "result") ++ lit ":{" ++ quoted (lit "serverInfo")
  ++ lit ":{" ++ quoted (lit "name") ++ lit ":" ++ quoted (lit "mongo-essential")
  ++ lit "," ++ quoted (lit "version") ++ lit ":" ++ quoted (lit "1.2.0")
  ++ lit "}}}".

Definition status_tool : json :=
  JDict [(lit "name", JStr (lit "migration_status"));
         (lit "description", JStr (lit "Show status"))].

Definition sample_info : list (pystr * json) :=
  [(lit "name", JStr (lit "mongo-essential"));
   (lit "version", JStr (lit "1.2.0"))].

(** [json.loads] on the texts that the sample server writes. *)
Definition sample_loads (s : pystr) : decoded :=
  if eqb_str s number_text then
    Loaded (JDict [(lit "result", JInt 5)])
  else if eqb_str s bare_block_text then
    Loaded (JDict [(lit "result",
                    JDict [(lit "content", JList [JDict []])])])
  else if eqb_str s tools_text then
    Loaded (JDict [(lit "result",
                    JDict [(lit "tools", JList [status_tool])])])
  else if eqb_str s server_info_text then
    Loaded (JDict [(lit "result",
                    JDict [(lit "serverInfo", JDict sample_info)])])
  else
    JSONDecodeError (lit "Expecting value: line 1 column 1 (char 0)").

(** A server that answers, run after run, with a number for a result, with
    a content block without text, with a list of one tool, with its name
    and version, and then with words that are no JSON, complaining on
    standard error. *)
Definition sample_world : World :=
  {| path_exists := fun p => eqb_str p default_binary;
     popen := fun n =>
       match n with
       | 0 => Communicated (number_text ++ [NL]) []
       | 1 => Communicated (bare_block_text ++ [NL]) []
       | 2 => Communicated (tools_text ++ [NL]) []
       | 3 => Communicated (server_info_text ++ [NL]) []
       | _ => Communicated (lit "panic" ++ [NL])
                           (lit "  no database" ++ [NL])
       end%nat;
     json_loads := sample_loads;
     keyboard := [] |}.

(** A client for the default binary that has made [n] calls, with the input
    [keys] still to come. *)
Definition at_call (n : nat) (keys : list keystroke) : State :=
  {| self := {| mcp_binary_path := default_binary;
                request_id := Z.of_nat n |};
     spawned := n; stdin := keys |}.

(** ** The model on examples *)

Example split_create_line :
  split SPACE 2 (lit "create add_index Add user email index") =
  [lit "create"; lit "add_index"; lit "Add user email index"].
Proof. reflexivity. Qed.

Example split_keeps_empty_pieces :
  split SPACE 2 (lit "create  x") = [lit "create"; []; lit "x"].
Proof. reflexivity. Qed.

Example split_one_word : split SPACE 1 (lit "index") = [lit "index"].
Proof. reflexivity. Qed.

Example strip_both_ends : strip (lit "  up 1 " ++ [NL]) = lit "up 1".
Proof. reflexivity. Qed.

Example join_words :
  join [SPACE] [lit "Add"; lit "user"; lit "index"] = lit "Add user index".
Proof. reflexivity. Qed.

(** An interactive session on the example server: [status], then [quit].
    [main] returns and is called again, so a second client is built and
    sends its own [initialize], numbered 1 again. *)
Example interactive_session_ids :
  ids (emitted (run example_world (example_args None []))) = [1; 2; 1]%Z.
Proof. vm_compute. reflexivity. Qed.

Example interactive_session_status :
  exit_status (run example_world (example_args None [])) = 0%Z.
Proof. vm_compute. reflexivity. Qed.

(** ** Request numbering *)

Lemma count_from_app a n m :
  count_from a (n + m) = count_from a n ++ count_from (a + Z.of_nat n) m.
Proof.
  revert a; induction n as [|n IH]; intros a.
  - simpl. now rewrite Z.add_0_r.
  - cbn [count_from Nat.add app]. rewrite IH. do 3 f_equal. lia.
Qed.

Lemma count_from_above a n x : In x (count_from a n) -> (a < x)%Z.
Proof.
  revert a; induction n as [|n IH]; intros a; simpl; [tauto|].
  intros [<- | H]; [lia|]. apply IH in H. lia.
Qed.

Lemma count_from_sorted a n : StronglySorted Z.lt (count_from a n).
Proof.
  revert a; induction n as [|n IH]; intros a; simpl; constructor.
  - apply IH.
  - apply Forall_forall. intros x H. now apply count_from_above in H.
Qed.

Lemma count_from_seq a n :
  count_from a n = map (fun k => (a + Z.of_nat k)%Z) (seq 1 n).
Proof.
  revert a; induction n as [|n IH]; intros a; [reflexivity|].
  cbn [count_from seq map]. f_equal; try lia.
  rewrite IH, <- (seq_shift n 1), map_map. apply map_ext. intros k. lia.
Qed.

Lemma sorted_lt_nodup (l : list Z) : StronglySorted Z.lt l -> NoDup l.
Proof.
  induction 1 as [|x l _ IH Hx]; constructor; auto.
  intros Hin. rewrite Forall_forall in Hx. specialize (Hx _ Hin). lia.
Qed.

Lemma requests_app t u : requests (t ++ u) = requests t ++ requests u.
Proof.
  induction t as [|[] t IH]; simpl; auto. now rewrite IH.
Qed.

Lemma ids_app t u : ids (t ++ u) = ids t ++ ids u.
Proof. unfold ids. now rewrite requests_app, map_app. Qed.

Lemma disciplined_ret A (a : A) : disciplined (ret a).
Proof. intros st; cbn. repeat split; lia. Qed.

Lemma disciplined_raise A e : disciplined (@raise A e).
Proof. intros st; cbn. repeat split; lia. Qed.

Lemma disciplined_lift A (r : result A) : disciplined (lift r).
Proof. destruct r; [apply disciplined_ret | apply disciplined_raise]. Qed.

Lemma disciplined_print l : disciplined (print l).
Proof. intros st; cbn. repeat split; lia. Qed.

Lemma disciplined_eprint l : disciplined (eprint l).
Proof. intros st; cbn. repeat split; lia. Qed.

Lemma disciplined_print_decoded l : disciplined (print_decoded l).
Proof.
  unfold print_decoded. destruct (forallb encodable_frag l);
    intros st; cbn; repeat split; lia.
Qed.

Lemma disciplined_prompt p : disciplined (emit (Prompt p)).
Proof. intros st; cbn. repeat split; lia. Qed.

Lemma disciplined_pending : disciplined pending.
Proof. intros st; cbn. repeat split; lia. Qed.

Lemma disciplined_leave rest : disciplined (leave rest).
Proof. intros st; cbn. repeat split; lia. Qed.

Lemma disciplined_bind A B (m : M A) (k : A -> M B) :
  disciplined m -> (forall a, disciplined (k a)) -> disciplined (bind m k).
Proof.
  intros Hm Hk st. unfold bind. specialize (Hm st). cbv zeta in Hm.
  destruct (m st) as [[a|e] st1 t1]; cbn [outcome after emitted] in *;
    [|exact Hm].
  specialize (Hk a st1). cbv zeta in Hk.
  destruct (k a st1) as [o2 st2 t2]; cbn [outcome after emitted] in *.
  destruct Hm as (Hp1 & Hi1 & Hc1), Hk as (Hp2 & Hi2 & Hc2).
  rewrite ids_app, length_app, count_from_app, <- Hi1, <- Hc1, <- Hi2.
  repeat split; try congruence. lia.
Qed.

Lemma disciplined_item A (l : list A) i : disciplined (item l i).
Proof.
  unfold item. destruct (nth_error l i);
    [apply disciplined_ret | apply disciplined_raise].
Qed.

Lemma disciplined_for_each A (l : list A) (body : A -> M unit) :
  (forall x, disciplined (body x)) -> disciplined (for_each l body).
Proof.
  intros Hb. induction l as [|x l IH]; simpl.
  - apply disciplined_ret.
  - apply disciplined_bind; auto.
Qed.

Create HintDb numbering.
#[local] Hint Resolve disciplined_ret disciplined_raise disciplined_lift
  disciplined_print disciplined_eprint disciplined_prompt disciplined_item
  disciplined_pending disciplined_leave disciplined_print_decoded : numbering.

(** Splits a computation along its binds and branches. *)
Ltac numbering :=
  repeat first
    [ solve [auto with numbering]
    | apply disciplined_for_each; intros ?
    | apply disciplined_bind; [| intros ?]
    | match goal with
      | |- disciplined (if ?b then _ else _) => destruct b
      | |- disciplined (match ?x with _ => _ end) => destruct x
      end ].

(** One round trip: whatever the subprocess does, the call returns (with the
    response or [None]), has sent exactly one request, numbered one above
    the counter, has moved the counter to that number, and has printed
    nothing on standard output. *)
Lemma transport_step w method params st :
  let r := _run_mcp_request w method params st in
  after r = next_state st
  /\ requests (emitted r) = [request_of st method (params_or_empty params)]
  /\ printed (emitted r) = []
  /\ outcome r = Ok (answer w (spawned st)).
Proof.
  unfold answer, _run_mcp_request, bind; cbn.
  destruct (popen w (spawned st)) as [|e|out err]; cbn; auto.
  destruct (strip err); cbn;
    (destruct (strip out) as [|c out']; cbn; auto;
     destruct (json_loads w (c :: out')); cbn; auto).
Qed.

Lemma disciplined_transport w method params :
  disciplined (_run_mcp_request w method params).
Proof.
  intros st. cbv zeta.
  destruct (transport_step w method params st) as (Hs & Hr & _).
  unfold ids. rewrite Hr, Hs. cbn. repeat split; lia.
Qed.
#[local] Hint Resolve disciplined_transport : numbering.

Lemma disciplined_report_content response default failure :
  disciplined (report_content response default failure).
Proof. unfold report_content. numbering. Qed.
#[local] Hint Resolve disciplined_report_content : numbering.

Lemma disciplined_initialize w : disciplined (initialize w).
Proof. unfold initialize. numbering. Qed.

Lemma disciplined_list_tools w : disciplined (list_tools w).
Proof. unfold list_tools. numbering. Qed.

Lemma disciplined_migration_status w : disciplined (migration_status w).
Proof. unfold migration_status. numbering. Qed.

Lemma disciplined_migration_up w v : disciplined (migration_up w v).
Proof. unfold migration_up. cbv zeta. numbering. Qed.

Lemma disciplined_migration_down w v : disciplined (migration_down w v).
Proof. unfold migration_down. cbv zeta. numbering. Qed.

Lemma disciplined_create_migration w n d : disciplined (create_migration w n d).
Proof. unfold create_migration. numbering. Qed.

Lemma disciplined_list_migrations w : disciplined (list_migrations w).
Proof. unfold list_migrations. numbering. Qed.

#[local] Hint Resolve disciplined_initialize disciplined_list_tools
  disciplined_migration_status disciplined_migration_up
  disciplined_migration_down disciplined_create_migration
  disciplined_list_migrations : numbering.

Lemma disciplined_interactive_command w command :
  disciplined (interactive_command w command).
Proof. unfold interactive_command, _print_help. cbv zeta. numbering. Qed.
#[local] Hint Resolve disciplined_interactive_command : numbering.

Lemma disciplined_command_loop w keys : disciplined (command_loop w keys).
Proof.
  induction keys as [|[s| |] keys IH]; cbn [command_loop]; unfold farewell;
    numbering.
Qed.
#[local] Hint Resolve disciplined_command_loop : numbering.

Lemma disciplined_interactive_mode w : disciplined (interactive_mode w).
Proof. unfold interactive_mode. numbering. Qed.
#[local] Hint Resolve disciplined_interactive_mode : numbering.

Lemma new_client_bind A path (k : unit -> M A) st :
  bind (new_client path) k st =
  k tt {| self := __init__ path; spawned := spawned st; stdin := stdin st |}.
Proof. unfold bind, new_client. cbn. now destruct (k tt _). Qed.

(** What [main] does once it has built its client. *)
Lemma main_with_client w a st :
  path_exists w (binary a) = true ->
  exists serve : M unit,
    disciplined serve /\ main w a st = serve (fresh a st).
Proof.
  intros Hp. unfold main, sys_exit. rewrite Hp. cbn [negb].
  rewrite new_client_bind. eexists. split; [|reflexivity].
  destruct (command a) as [[]|]; cbv zeta; numbering.
Qed.

Lemma disciplined_transport_calls w calls :
  disciplined (transport_calls w calls).
Proof. unfold transport_calls. numbering. Qed.

Lemma numbered_from_zero A (m : M A) st :
  disciplined m -> request_id (self st) = 0%Z ->
  let l := ids (emitted (m st)) in
  l = map Z.of_nat (seq 1 (length l))
  /\ StronglySorted Z.lt l /\ NoDup l
  /\ (forall i, hd_error l = Some i -> i = 1%Z).
Proof.
  intros Hm H0 l. destruct (Hm st) as (_ & Hl & _).
  rewrite H0 in Hl. fold l in Hl.
  assert (Hs : StronglySorted Z.lt l) by (rewrite Hl; apply count_from_sorted).
  repeat split; auto using sorted_lt_nodup.
  - rewrite Hl at 1. rewrite count_from_seq. now apply map_ext.
  - intros i. rewrite Hl. destruct (length l); simpl; congruence.
Qed.



(** ** Computations that send nothing *)

Lemma silent_ret A (a : A) : silent (ret a).
Proof. intros st; now cbn. Qed.

Lemma silent_raise A e : silent (@raise A e).
Proof. intros st; now cbn. Qed.

Lemma silent_lift A (r : result A) : silent (lift r).
Proof. destruct r; [apply silent_ret | apply silent_raise]. Qed.

Lemma silent_print l : silent (print l).
Proof. intros st; now cbn. Qed.

Lemma silent_print_decoded l : silent (print_decoded l).
Proof.
  unfold print_decoded. destruct (forallb encodable_frag l);
    intros st; now cbn.
Qed.

Lemma silent_item A (l : list A) i : silent (item l i).
Proof.
  unfold item. destruct (nth_error l i); [apply silent_ret | apply silent_raise].
Qed.

Lemma silent_bind A B (m : M A) (k : A -> M B) :
  silent m -> (forall a, silent (k a)) -> silent (bind m k).
Proof.
  intros Hm Hk st. unfold bind. destruct (Hm st) as [Hs Hr].
  destruct (outcome (m st)) as [a|e]; cbn [after emitted]; [|now split].
  destruct (Hk a (after (m st))) as [Hs' Hr'].
  rewrite requests_app, Hr, Hr', Hs'. now split.
Qed.

Lemma silent_for_each A (l : list A) (body : A -> M unit) :
  (forall x, silent (body x)) -> silent (for_each l body).
Proof.
  intros Hb. induction l as [|x l IH]; simpl.
  - apply silent_ret.
  - apply silent_bind; auto.
Qed.

Create HintDb quiet.
#[local] Hint Resolve silent_ret silent_raise silent_lift silent_print
  silent_print_decoded silent_item : quiet.

Ltac quiet :=
  repeat first
    [ solve [auto with quiet]
    | apply silent_for_each; intros ?
    | apply silent_bind; [| intros ?]
    | match goal with
      | |- silent (if ?b then _ else _) => destruct b
      | |- silent (match ?x with _ => _ end) => destruct x
      end ].

Lemma silent_report_content response default failure :
  silent (report_content response default failure).
Proof. unfold report_content. quiet. Qed.
#[local] Hint Resolve silent_report_content : quiet.

(** The shape every intent has: a line that announces it, one round trip,
    and a silent reading of the response. *)
Lemma announce_call_read A w line method params (read : json -> M A) st :
  let t := emitted (_run_mcp_request w method params st) in
  let r := read (answer w (spawned st)) (next_state st) in
  (print line ;; response <- _run_mcp_request w method params ;; read response)
    st
  = {| outcome := outcome r; after := after r;
       emitted := Stdout line :: t ++ emitted r |}.
Proof.
  destruct (transport_step w method params st) as (Ha & _ & _ & Ho).
  unfold bind at 1 2, print, emit. cbn [outcome after emitted app].
  now rewrite Ho, Ha.
Qed.

Lemma one_request A w line method params (read : json -> M A) st :
  (forall v, silent (read v)) ->
  let r := (print line ;; response <- _run_mcp_request w method params ;;
            read response) st in
  after r = next_state st
  /\ requests (emitted r) = [request_of st method (params_or_empty params)].
Proof.
  intros Hread. cbv zeta. rewrite announce_call_read.
  destruct (transport_step w method params st) as (_ & Hr & _).
  destruct (Hread (answer w (spawned st)) (next_state st)) as [Hs Hq].
  cbn [after emitted requests]. now rewrite requests_app, Hr, Hq, Hs.
Qed.


(** ** Errors that escape, and failure lines *)

Ltac by_cases :=
  repeat match goal with
         | |- context [match ?x with _ => _ end] => destruct x
         end;
  cbn; auto.

Lemma safe_has_result v : safe (has_result v).
Proof. unfold has_result, contains. by_cases. Qed.

Lemma safe_getitem v k : safe (getitem v k).
Proof. unfold getitem. by_cases. Qed.

Lemma safe_getitem0 v : safe (getitem0 v).
Proof. unfold getitem0. by_cases. Qed.

Lemma safe_get v k d : safe (get v k d).
Proof. unfold get. by_cases. Qed.

Lemma safe_len v : safe (len v).
Proof. unfold len. by_cases. Qed.

Lemma safe_iter v : safe (iter v).
Proof. unfold iter. by_cases. Qed.

Lemma safe_concat s v : safe (concat s v).
Proof. unfold concat. by_cases. Qed.

Lemma safe_nonempty v :
  safe (if truthy v
        then match len v with
             | Ok n => Ok (0 <? n)%nat
             | Raise e => Raise e
             end
        else Ok false).
Proof. destruct v; cbn; by_cases. Qed.

Lemma no_exit_ret A (a : A) : no_exit (ret a).
Proof. intros st; exact I. Qed.

Lemma no_exit_lift A (r : result A) : safe r -> no_exit (lift r).
Proof. intros H st. destruct r; exact H. Qed.

Lemma no_exit_emit e : no_exit (emit e).
Proof. intros st; exact I. Qed.

Lemma no_exit_print_decoded l : no_exit (print_decoded l).
Proof.
  unfold print_decoded. destruct (forallb encodable_frag l);
    intros st; cbn; auto.
Qed.

Lemma no_exit_pending : no_exit pending.
Proof. intros st; exact I. Qed.

Lemma no_exit_leave rest : no_exit (leave rest).
Proof. intros st; exact I. Qed.

Lemma no_exit_item A (l : list A) i : no_exit (item l i).
Proof. intros st. unfold item. destruct (nth_error l i); cbn; auto. Qed.

Lemma no_exit_bind A B (m : M A) (k : A -> M B) :
  no_exit m -> (forall a, no_exit (k a)) -> no_exit (bind m k).
Proof.
  intros Hm Hk st. unfold bind. specialize (Hm st).
  destruct (outcome (m st)) as [a|e]; cbn [outcome]; [apply Hk | exact Hm].
Qed.

Lemma no_exit_for_each A (l : list A) (body : A -> M unit) :
  (forall x, no_exit (body x)) -> no_exit (for_each l body).
Proof.
  intros Hb. induction l as [|x l IH]; simpl.
  - apply no_exit_ret.
  - apply no_exit_bind; auto.
Qed.

Lemma no_exit_transport w method params :
  no_exit (_run_mcp_request w method params).
Proof.
  intros st. destruct (transport_step w method params st) as (_ & _ & _ & Ho).
  now rewrite Ho.
Qed.

Create HintDb escapes.
#[local] Hint Resolve safe_has_result safe_getitem safe_getitem0 safe_get
  safe_len safe_iter safe_concat safe_nonempty no_exit_ret no_exit_lift
  no_exit_emit no_exit_item no_exit_transport no_exit_pending no_exit_leave
  no_exit_print_decoded : escapes.
#[local] Hint Unfold print eprint farewell _print_help : escapes.

Ltac escapes :=
  repeat first
    [ solve [auto with escapes]
    | apply no_exit_for_each; intros ?
    | apply no_exit_bind; [| intros ?]
    | match goal with
      | |- no_exit (if ?b then _ else _) => destruct b
      | |- no_exit (match ?x with _ => _ end) => destruct x
      end ].

Lemma no_exit_report_content response default failure :
  no_exit (report_content response default failure).
Proof. unfold report_content, print. escapes. Qed.
#[local] Hint Resolve no_exit_report_content : escapes.

Lemma no_exit_perform w i : no_exit (perform w i).
Proof.
  destruct i; cbn [perform];
    [unfold initialize|unfold list_tools|unfold migration_status
    |unfold migration_up|unfold migration_down|unfold create_migration
    |unfold list_migrations]; cbv zeta; unfold print; escapes.
Qed.

Lemma no_exit_interactive_command w command :
  no_exit (interactive_command w command).
Proof.
  pose proof (no_exit_perform w) as Hp.
  pose proof (Hp Initialize) as H1. pose proof (Hp ListTools) as H2.
  pose proof (Hp Status) as H3. pose proof (Hp ListMigrations) as H4.
  pose proof (fun v => Hp (Apply v)) as H5.
  pose proof (fun v => Hp (Rollback v)) as H6.
  pose proof (fun n d => Hp (Create n d)) as H7. cbn [perform] in *.
  unfold interactive_command, _print_help, print. cbv zeta. escapes.
Qed.

Lemma no_exit_command_loop w keys : no_exit (command_loop w keys).
Proof.
  pose proof (no_exit_interactive_command w) as Hc.
  induction keys as [|[s| |] keys IH]; cbn [command_loop];
    unfold farewell, print; escapes.
Qed.

Lemma no_exit_interactive_mode w : no_exit (interactive_mode w).
Proof.
  pose proof (no_exit_perform w Initialize) as Hi. cbn [perform] in Hi.
  pose proof (no_exit_command_loop w) as Hl.
  unfold interactive_mode, print. escapes.
Qed.

Lemma printed_app t u : printed (t ++ u) = printed t ++ printed u.
Proof. unfold printed. apply flat_map_app. Qed.

Lemma reports_failure_app t u :
  reports_failure (t ++ u) = reports_failure t || reports_failure u.
Proof. unfold reports_failure. now rewrite printed_app, existsb_app. Qed.

Lemma clean_ret A (a : A) : clean (ret a).
Proof. intros st; reflexivity. Qed.

Lemma clean_raise A e : clean (@raise A e).
Proof. intros st; reflexivity. Qed.

Lemma clean_lift A (r : result A) : clean (lift r).
Proof. destruct r; [apply clean_ret | apply clean_raise]. Qed.

Lemma clean_item A (l : list A) i : clean (item l i).
Proof.
  unfold item. destruct (nth_error l i); [apply clean_ret | apply clean_raise].
Qed.

Lemma clean_print l : failure_line l = false -> clean (print l).
Proof.
  intros H st. unfold reports_failure. cbn. now rewrite H.
Qed.

Lemma clean_print_decoded l :
  failure_line l = false -> clean (print_decoded l).
Proof.
  intros H st. unfold print_decoded, reports_failure.
  destruct (forallb encodable_frag l); cbn; now rewrite ?H.
Qed.

Lemma clean_bind A B (m : M A) (k : A -> M B) :
  clean m -> (forall a, clean (k a)) -> clean (bind m k).
Proof.
  intros Hm Hk st. unfold bind. specialize (Hm st).
  destruct (outcome (m st)) as [a|e]; cbn [emitted]; [|exact Hm].
  now rewrite reports_failure_app, Hm, Hk.
Qed.

Lemma clean_for_each A (l : list A) (body : A -> M unit) :
  (forall x, clean (body x)) -> clean (for_each l body).
Proof.
  intros Hb. induction l as [|x l IH]; simpl.
  - apply clean_ret.
  - apply clean_bind; auto.
Qed.

Lemma clean_transport w method params :
  clean (_run_mcp_request w method params).
Proof.
  intros st. destruct (transport_step w method params st) as (_ & _ & Hp & _).
  unfold reports_failure. now rewrite Hp.
Qed.

(** [print("\n" + text)] never looks like a failure line. *)
Lemma clean_print_text text :
  clean (line <- lift (concat [NL] text) ;;
         print_decoded [Text line] ;; ret true).
Proof.
  destruct text as [| | | |s| |]; try (intros st; reflexivity).
  intros st. unfold print_decoded, bind. cbn [concat lift app ret outcome].
  destruct (forallb encodable_frag [Text (NL :: s)]); reflexivity.
Qed.

Create HintDb tidy.
#[local] Hint Resolve clean_ret clean_raise clean_lift clean_item
  clean_transport clean_print_text : tidy.

Ltac cleans :=
  repeat first
    [ solve [auto with tidy]
    | apply clean_print; reflexivity
    | apply clean_print_decoded; reflexivity
    | apply clean_for_each; intros ?
    | apply clean_bind; [| intros ?]
    | match goal with
      | |- clean (if ?b then _ else _) => destruct b
      | |- clean (match ?x with _ => _ end) => destruct x
      end ].

Lemma verdict_true : verdict (ret true).
Proof. intros st; reflexivity. Qed.

Lemma verdict_false l :
  failure_line l = true -> verdict (print l ;; ret false).
Proof. intros H st. unfold reports_failure. cbn. now rewrite H. Qed.

Lemma verdict_bind A (m : M A) (k : A -> M bool) :
  clean m -> (forall a, verdict (k a)) -> verdict (bind m k).
Proof.
  intros Hm Hk st. unfold bind. specialize (Hm st). cbv zeta.
  destruct (outcome (m st)) as [a|e]; cbn [outcome emitted]; [|exact I].
  specialize (Hk a (after (m st))). cbv zeta in Hk.
  destruct (outcome (k a (after (m st)))); [|exact I].
  now rewrite reports_failure_app, Hm.
Qed.

Ltac verdicts :=
  repeat first
    [ apply verdict_true
    | apply verdict_false; reflexivity
    | apply verdict_bind; [solve [cleans] | intros ?]
    | match goal with
      | |- verdict (if ?b then _ else _) => destruct b
      | |- verdict (match ?x with _ => _ end) => destruct x
      end ].

Lemma verdict_report_content response default failure :
  failure_line [Text failure] = true ->
  verdict (report_content response default failure).
Proof.
  intros H. unfold report_content.
  apply verdict_bind; [solve [cleans] | intros ok].
  apply verdict_bind; [solve [cleans] | intros [|]].
  - apply verdict_true.
  - now apply verdict_false.
Qed.

Lemma verdict_perform w i : verdict (perform w i).
Proof.
  destruct i; cbn [perform];
    [unfold initialize|unfold list_tools|unfold migration_status
    |unfold migration_up|unfold migration_down|unfold create_migration
    |unfold list_migrations]; cbv zeta;
    try (apply verdict_bind; [solve [cleans] | intros ?];
         apply verdict_bind; [solve [cleans] | intros ?];
         apply verdict_report_content; reflexivity);
    verdicts.
Qed.

Lemma ret_bind A B (a : A) (k : A -> M B) st : bind (ret a) k st = k a st.
Proof. unfold bind, ret. cbn. now destruct (k a st). Qed.

(** ** The intents, one by one *)

Lemma create_migration_sends w name description st :
  let r := create_migration w name description st in
  after r = next_state st
  /\ requests (emitted r) =
       [request_of st (lit "tools/call")
          (tool_call (lit "migration_create")
             [(lit "name", JStr name); (lit "description", JStr description)])].
Proof. unfold create_migration. apply one_request. intros v; quiet. Qed.

Lemma migration_up_sends w version st :
  let r := migration_up w version st in
  after r = next_state st
  /\ requests (emitted r) =
       [request_of st (lit "tools/call")
          (tool_call (lit "migration_up")
             match given version with
             | Some v => [(lit "version", JStr v)]
             | None => []
             end)].
Proof. unfold migration_up. cbv zeta. apply one_request. intros v; quiet. Qed.

Lemma migration_down_sends w version st :
  let r := migration_down w version st in
  after r = next_state st
  /\ requests (emitted r) =
       [request_of st (lit "tools/call")
          (tool_call (lit "migration_down")
             match given version with
             | Some v => [(lit "version", JStr v)]
             | None => []
             end)].
Proof. unfold migration_down. cbv zeta. apply one_request. intros v; quiet. Qed.

Lemma initialize_sends w st :
  let r := initialize w st in
  after r = next_state st
  /\ requests (emitted r) = [request_of st (lit "initialize") (JDict [])].
Proof. unfold initialize. apply one_request. intros v; quiet. Qed.


(** ** Lines of the interactive loop *)

Lemma rstrip_token t : token t -> rstrip t = t.
Proof.
  intros [Hne Hall]. clear Hne. induction t as [|c t IH]; [reflexivity|].
  cbn in Hall. apply andb_prop in Hall as [Hc Ht].
  cbn [rstrip]. rewrite (IH Ht).
  destruct t; [|reflexivity]. apply negb_true_iff in Hc. now rewrite Hc.
Qed.

Lemma rstrip_before_token s t : token t -> rstrip (s ++ t) = s ++ t.
Proof.
  intros Ht. induction s as [|c s IH]; [now apply rstrip_token|].
  cbn [app rstrip]. rewrite IH.
  destruct (s ++ t) eqn:E; [|reflexivity].
  apply app_eq_nil in E as [_ ->]. now destruct Ht.
Qed.

Lemma token_no_space t : token t -> ~ In SPACE t.
Proof.
  intros [_ Hall] Hin. rewrite forallb_forall in Hall.
  now specialize (Hall _ Hin).
Qed.

Lemma split_whole sep n s : ~ In sep s -> split sep n s = [s].
Proof.
  induction s as [|c s IH]; [reflexivity|]. intros Hin. cbn [split].
  destruct (N.eqb_spec c sep) as [->|_]; [exfalso; apply Hin; now left|].
  rewrite andb_false_r, IH; [reflexivity|]. intros H; apply Hin; now right.
Qed.

Lemma split_first sep n s rest :
  ~ In sep s -> split sep (S n) (s ++ sep :: rest) = s :: split sep n rest.
Proof.
  induction s as [|c s IH]; intros Hin.
  - cbn [app split]. now rewrite N.eqb_refl.
  - cbn [app split].
    destruct (N.eqb_spec c sep) as [->|_]; [exfalso; apply Hin; now left|].
    rewrite andb_false_r, IH; [reflexivity|]. intros H; apply Hin; now right.
Qed.

(** A line that starts with [create ] reaches the [create] branch. *)
Lemma create_branch w rest :
  interactive_command w (lit "create " ++ rest) =
  (let parts := split SPACE 2 (lit "create " ++ rest) in
   if (length parts <? 3)%nat then print [Text usage] ;; ret Next
   else
     tail <- item parts 2 ;;
     let name_desc := split SPACE 1 tail in
     if (length name_desc <? 2)%nat then print [Text usage] ;; ret Next
     else
       name <- item name_desc 0 ;;
       description <- item name_desc 1 ;;
       create_migration w name description ;; ret Next).
Proof. reflexivity. Qed.



(** ** Responses without a result *)

Lemma has_result_lacking v : lacks_result v -> has_result v = Ok false.
Proof.
  intros (d & -> & Hd). unfold has_result, contains. rewrite Hd.
  now destruct d.
Qed.

Lemma report_content_without_result v default failure st :
  has_result v = Ok false ->
  report_content v default failure st =
  {| outcome := Ok false; after := st; emitted := [Stdout [Text failure]] |}.
Proof. intros H. unfold report_content. now rewrite H. Qed.

(** When the response has no usable result, an intent prints the line that
    announces it and the line that reports its failure, and returns
    [False]. *)
Lemma perform_without_result i :
  exists announce,
    forall w st,
      has_result (answer w (spawned st)) = Ok false ->
      let r := perform w i st in
      outcome r = Ok false
      /\ after r = next_state st
      /\ printed (emitted r) = [announce; [Text (failure_message i)]].
Proof.
  destruct i as [| | |v|v|n d|]; eexists; intros w st H; cbn [perform];
    [unfold initialize|unfold list_tools|unfold migration_status
    |unfold migration_up|unfold migration_down|unfold create_migration
    |unfold list_migrations]; cbv zeta; rewrite announce_call_read;
    match goal with
    | |- context [emitted (_run_mcp_request w ?m ?p st)] =>
        destruct (transport_step w m p st) as (_ & _ & Hp & _)
    end;
    rewrite ?report_content_without_result by exact H;
    cbn [outcome after emitted]; try rewrite H;
    cbn [lift]; rewrite ?ret_bind;
    change (printed (Stdout ?l :: ?t)) with (l :: printed t);
    rewrite printed_app, Hp; repeat split; reflexivity.
Qed.


Lemma transport_failure_is_none w n :
  transport_fails w n = true -> answer w n = JNull.
Proof.
  unfold transport_fails, answer, _run_mcp_request, bind; cbn.
  destruct (popen w n) as [|e|out err]; cbn; auto.
  destruct (strip err); cbn;
    (destruct (strip out) as [|c out']; cbn; auto;
     destruct (json_loads w (c :: out')); cbn; auto; discriminate).
Qed.

Lemma bind_run A B (m : M A) (k : A -> M B) st :
  bind m k st =
  match outcome (m st) with
  | Ok a =>
      {| outcome := outcome (k a (after (m st)));
         after := after (k a (after (m st)));
         emitted := emitted (m st) ++ emitted (k a (after (m st))) |}
  | Raise e =>
      {| outcome := Raise e; after := after (m st); emitted := emitted (m st) |}
  end.
Proof. reflexivity. Qed.

(** ** The entry point, case by case *)

Lemma main_missing_binary w a st :
  path_exists w (binary a) = false ->
  main w a st =
  {| outcome := Raise (SystemExit 1); after := st;
     emitted := [Stdout [Text (lit "Error: Binary not found at " ++ binary a)];
                 Stdout [Text (lit "Build it with: make build")]] |}.
Proof. intros H. unfold main. now rewrite H. Qed.

Lemma main_interactive w a st :
  path_exists w (binary a) = true -> one_shot a = false ->
  main w a st = interactive_mode w (fresh a st).
Proof.
  intros H Hc. unfold main, one_shot in *. rewrite H. cbn [negb].
  rewrite new_client_bind.
  destruct (command a) as [[]|]; try discriminate Hc; reflexivity.
Qed.

Lemma main_init w a st :
  path_exists w (binary a) = true -> command a = Some init ->
  main w a st = finish (initialize w) (fresh a st).
Proof.
  intros H Hc. unfold main. rewrite H, Hc. cbn [negb].
  now rewrite new_client_bind, ret_bind.
Qed.

Lemma main_one_shot w a c st :
  path_exists w (binary a) = true -> command a = Some c ->
  c <> init -> c <> interactive ->
  main w a st = (gate w ;; finish (body w a c)) (fresh a st).
Proof.
  intros H Hc Hi Hn. unfold main. rewrite H, Hc. cbn [negb].
  rewrite new_client_bind.
  destruct c; try contradiction; unfold gate, finish, body; reflexivity.
Qed.

(** When the first call of [main] does not return, it is the whole run. *)
Lemma run_first_call w a e :
  outcome (main w a (boot w)) = Raise e -> run w a = main w a (boot w).
Proof.
  intros H. unfold run, __main__. rewrite bind_run, H.
  destruct (main w a (boot w)); cbn in *. now subst.
Qed.

(** The implicit [initialize]: it lets the run go on when it returns
    [True], ends it with status 1 when it returns [False], and ends it with
    its error when it raises one. *)
Lemma gate_run w st :
  gate w st =
  {| outcome := match outcome (initialize w st) with
                | Ok true => Ok tt
                | Ok false => Raise (SystemExit 1)
                | Raise e => Raise e
                end;
     after := next_state st;
     emitted := emitted (initialize w st) |}.
Proof.
  unfold gate. rewrite bind_run.
  destruct (initialize_sends w st) as [Ha _]. rewrite Ha.
  destruct (outcome (initialize w st)) as [[|]|e]; cbn; now rewrite ?app_nil_r.
Qed.

Lemma finish_run m st :
  finish m st =
  {| outcome := match outcome (m st) with
                | Ok true => Raise (SystemExit 0)
                | Ok false => Raise (SystemExit 1)
                | Raise e => Raise e
                end;
     after := after (m st);
     emitted := emitted (m st) |}.
Proof.
  unfold finish. rewrite bind_run.
  destruct (outcome (m st)) as [[|]|e]; cbn; now rewrite ?app_nil_r.
Qed.

Lemma run_missing_binary w a :
  path_exists w (binary a) = false ->
  run w a =
  {| outcome := Raise (SystemExit 1); after := boot w;
     emitted := [Stdout [Text (lit "Error: Binary not found at " ++ binary a)];
                 Stdout [Text (lit "Build it with: make build")]] |}.
Proof.
  intros H. rewrite (run_first_call w a (e := SystemExit 1));
    now rewrite main_missing_binary.
Qed.

Lemma run_init w a :
  path_exists w (binary a) = true -> command a = Some init ->
  run w a = finish (initialize w) (start w a).
Proof.
  intros H Hc. pose proof (main_init w a (boot w) H Hc) as E.
  rewrite finish_run in E.
  destruct (outcome (initialize w (fresh a (boot w)))) as [[|]|e] eqn:Ho.
  all: erewrite run_first_call by (rewrite E; reflexivity).
  all: now rewrite main_init.
Qed.

Lemma run_one_shot w a c :
  path_exists w (binary a) = true -> command a = Some c ->
  c <> init -> c <> interactive ->
  run w a = (gate w ;; finish (body w a c)) (start w a).
Proof.
  intros H Hc Hi Hn. pose proof (main_one_shot w a (boot w) H Hc Hi Hn) as E.
  rewrite bind_run, gate_run in E. cbn [outcome after emitted] in E.
  rewrite finish_run in E. cbn [outcome after emitted] in E.
  destruct (outcome (initialize w (fresh a (boot w)))) as [[|]|e];
    [destruct (outcome (body w a c (next_state (fresh a (boot w)))))
       as [[|]|e]| |].
  all: erewrite run_first_call by (rewrite E; reflexivity).
  all: now rewrite (main_one_shot w a (boot w) H Hc).
Qed.

(** In interactive mode [main] returns, without a status, and is called
    once more; no [sys.exit] is reached. *)
Lemma run_interactive w a :
  path_exists w (binary a) = true -> one_shot a = false ->
  safe (outcome (run w a)).
Proof.
  intros H Hc.
  assert (Hm : no_exit (main w a)).
  { intros st. rewrite (main_interactive w a st H Hc).
    apply no_exit_interactive_mode. }
  exact (@no_exit_bind _ _ (main w a) (fun _ => main w a) Hm (fun _ => Hm)
           (boot w)).
Qed.








(** ** Well-formed responses *)

Lemma bind_assoc A B C (m : M A) (f : A -> M B) (g : B -> M C) st :
  bind (bind m f) g st = bind m (fun a => bind (f a) g) st.
Proof.
  unfold bind. destruct (m st) as [[a|e] st1 t1]; cbn; [|reflexivity].
  destruct (f a st1) as [[b|e] st2 t2]; cbn; [|reflexivity].
  now rewrite app_assoc.
Qed.

Lemma print_bind A l (k : unit -> M A) st :
  bind (print l) k st =
  {| outcome := outcome (k tt st); after := after (k tt st);
     emitted := Stdout l :: emitted (k tt st) |}.
Proof. reflexivity. Qed.

(** Runs a computation whose tests are already decided, one bind at a
    time. *)
Ltac run_known :=
  repeat first
    [ rewrite ret_bind
    | rewrite bind_assoc
    | progress cbn [lift truthy len length Nat.ltb Nat.leb getitem0 concat] ].

Lemma has_result_present d x :
  lookup (lit "result") d = Some x -> has_result (JDict d) = Ok true.
Proof.
  intros H. unfold has_result, contains. rewrite H. destruct d; [discriminate|].
  reflexivity.
Qed.

Lemma encodable_line text :
  encodable text = true -> forallb encodable_frag [Text (NL :: text)] = true.
Proof.
  intros H. cbn [forallb encodable_frag]. unfold encodable in *.
  cbn [forallb]. now rewrite H.
Qed.

Lemma unencodable_line text :
  encodable text = false -> forallb encodable_frag [Text (NL :: text)] = false.
Proof.
  intros H. cbn [forallb encodable_frag]. unfold encodable in *.
  cbn [forallb]. now rewrite H.
Qed.

Lemma print_decoded_encodable line :
  forallb encodable_frag line = true -> print_decoded line = print line.
Proof. intros H. unfold print_decoded. now rewrite H. Qed.



(** The same response with a text that standard output cannot encode: the
    text is not printed and [UnicodeEncodeError] escapes. *)
Lemma report_content_unencodable v text default failure st :
  well_formed_tool_result v text ->
  encodable text = false ->
  report_content v default failure st =
  {| outcome := Raise UnicodeEncodeError; after := st; emitted := [] |}.
Proof.
  intros (d & res & block & more & -> & Hres & Hcontent & Htext) He.
  unfold report_content. rewrite (has_result_present _ Hres). run_known.
  unfold getitem. rewrite Hres. run_known.
  unfold get at 1. rewrite Hcontent. run_known.
  unfold get. rewrite Htext. run_known. cbn [app].
  unfold print_decoded. rewrite (unencodable_line _ He). reflexivity.
Qed.



(** ** The exit status *)

Lemma settled_finish m st : verdict m -> no_exit m -> settled (finish m st).
Proof.
  intros Hv Hn. rewrite finish_run. specialize (Hv st). specialize (Hn st).
  cbv zeta in Hv. unfold settled, exit_status, uncaught. cbn [outcome emitted].
  destruct (outcome (m st)) as [[|]|e].
  - now rewrite Hv.
  - rewrite Hv. cbn. split; [discriminate | intros [_ H]; discriminate H].
  - cbn in Hn. destruct e; try discriminate Hn; cbn;
      (split; [discriminate | intros [H _]; discriminate H]).
Qed.

Lemma settled_body w a c st :
  c <> interactive -> settled (finish (body w a c) st).
Proof.
  intros Hc. destruct c; cbn [body].
  - apply settled_finish;
      [apply (verdict_perform w Initialize)|apply (no_exit_perform w Initialize)].
  - apply settled_finish;
      [apply (verdict_perform w ListTools)|apply (no_exit_perform w ListTools)].
  - apply settled_finish;
      [apply (verdict_perform w Status)|apply (no_exit_perform w Status)].
  - apply settled_finish;
      [apply (verdict_perform w (Apply _))|apply (no_exit_perform w (Apply _))].
  - apply settled_finish;
      [apply (verdict_perform w (Rollback _))
      |apply (no_exit_perform w (Rollback _))].
  - destruct (length (args a) <? 2)%nat eqn:E.
    + unfold settled. cbn. split; [discriminate | intros [_ H]; discriminate H].
    + destruct (args a) as [|name more]; [discriminate E|].
      unfold finish. cbn [item nth_error]. rewrite bind_assoc, ret_bind.
      apply (settled_finish (m := create_migration w name _));
        [apply (verdict_perform w (Create _ _))
        |apply (no_exit_perform w (Create _ _))].
  - apply settled_finish;
      [apply (verdict_perform w ListMigrations)
      |apply (no_exit_perform w ListMigrations)].
  - contradiction.
Qed.

Lemma settled_gate w (k : M unit) st :
  (forall st', settled (k st')) -> settled ((gate w ;; k) st).
Proof.
  intros Hk. rewrite bind_run, gate_run. cbn [outcome after emitted].
  pose proof (verdict_perform w Initialize st) as Hv.
  pose proof (no_exit_perform w Initialize st) as Hn.
  cbn [perform] in Hv, Hn. cbv zeta in Hv.
  destruct (outcome (initialize w st)) as [[|]|e].
  - specialize (Hk (next_state st)). unfold settled, exit_status, uncaught in *.
    cbn [outcome emitted]. now rewrite reports_failure_app, Hv.
  - unfold settled, exit_status, uncaught. cbn [outcome emitted]. rewrite Hv.
    split; [discriminate | intros [_ H]; discriminate H].
  - cbn in Hn. unfold settled, exit_status, uncaught. cbn [outcome emitted].
    destruct e; try discriminate Hn; cbn;
      (split; [discriminate | intros [H _]; discriminate H]).
Qed.

Lemma exit_status_binary r : exit_status r = 0%Z \/ exit_status r = 1%Z ->
  settled r ->
  exit_status r =
  if uncaught r || reports_failure (emitted r) then 1%Z else 0%Z.
Proof.
  unfold settled. intros [H|H] [H1 H2]; rewrite H.
  - destruct (H1 H) as [-> ->]. reflexivity.
  - destruct (uncaught r); [reflexivity|].
    destruct (reports_failure (emitted r)); [reflexivity|].
    rewrite H2 in H by auto. discriminate H.
Qed.

Lemma finish_status m st :
  no_exit m ->
  exit_status (finish m st) = 0%Z \/ exit_status (finish m st) = 1%Z.
Proof.
  intros Hn. rewrite finish_run. specialize (Hn st). unfold exit_status.
  cbn [outcome]. destruct (outcome (m st)) as [[|]|e]; auto.
  cbn in Hn. destruct e; auto; discriminate Hn.
Qed.

Lemma body_status w a c st :
  exit_status (finish (body w a c) st) = 0%Z
  \/ exit_status (finish (body w a c) st) = 1%Z.
Proof.
  destruct c; cbn [body].
  - apply finish_status, (no_exit_perform w Initialize).
  - apply finish_status, (no_exit_perform w ListTools).
  - apply finish_status, (no_exit_perform w Status).
  - apply finish_status, (no_exit_perform w (Apply _)).
  - apply finish_status, (no_exit_perform w (Rollback _)).
  - destruct (length (args a) <? 2)%nat; [now right|].
    unfold item. destruct (nth_error (args a) 0) as [name|]; [|now right].
    unfold finish. rewrite bind_assoc, ret_bind.
    apply (finish_status (m := create_migration w name _)),
      (no_exit_perform w (Create _ _)).
  - apply finish_status, (no_exit_perform w ListMigrations).
  - now right.
Qed.

Lemma gate_status w (k : M unit) st :
  (forall st', exit_status (k st') = 0%Z \/ exit_status (k st') = 1%Z) ->
  exit_status ((gate w ;; k) st) = 0%Z \/ exit_status ((gate w ;; k) st) = 1%Z.
Proof.
  intros Hk. rewrite bind_run, gate_run. cbn [outcome after emitted].
  pose proof (no_exit_perform w Initialize st) as Hn. cbn [perform] in Hn.
  destruct (outcome (initialize w st)) as [[|]|e].
  - apply (Hk (next_state st)).
  - now right.
  - cbn in Hn. destruct e; try discriminate Hn; now right.
Qed.


(** * The claims of the specification *)

(** C1, on the line [create add_index Add user email index]: the
    dispatcher does send exactly one [tools/call] request for
    [migration_create], but the name it sends is [Add], the second word
    after the command word, and the description is what follows that word;
    the first word, [add_index], is dropped. *)
Theorem interactive_create_drops_first_word w st :
  let line := lit "create add_index Add user email index" in
  let r := interactive_command w (strip line) st in
  requests (emitted r) =
    [request_of st (lit "tools/call")
       (tool_call (lit "migration_create")
          [(lit "name", JStr (lit "Add"));
           (lit "description", JStr (lit "user email index"))])]
  /\ requests (emitted r) <>
    [request_of st (lit "tools/call")
       (tool_call (lit "migration_create")
          [(lit "name", JStr (lit "add_index"));
           (lit "description", JStr (lit "Add user email index"))])].
Proof.
  intros line r.
  assert (E : interactive_command w (strip line) st =
              (create_migration w (lit "Add") (lit "user email index") ;;
               ret Next) st).
  { change (strip line)
      with (lit "create " ++ lit "add_index Add user email index").
    rewrite create_branch. cbv zeta.
    change (split SPACE 2
              (lit "create " ++ lit "add_index Add user email index"))
      with [lit "create"; lit "add_index"; lit "Add user email index"].
    cbn [length Nat.ltb Nat.leb item nth_error]. rewrite ret_bind.
    change (split SPACE 1 (lit "Add user email index"))
      with [lit "Add"; lit "user email index"].
    cbn [length Nat.ltb Nat.leb item nth_error]. now rewrite !ret_bind. }
  assert (Hr : requests (emitted r) =
    [request_of st (lit "tools/call")
       (tool_call (lit "migration_create")
          [(lit "name", JStr (lit "Add"));
           (lit "description", JStr (lit "user email index"))])]).
  { subst r. rewrite E. unfold bind.
    destruct (create_migration_sends w (lit "Add") (lit "user email index") st)
      as [_ Hq].
    destruct (outcome (create_migration w (lit "Add")
                         (lit "user email index") st));
      cbn [emitted ret]; rewrite ?app_nil_r; exact Hq. }
  split; [exact Hr|]. rewrite Hr. intros H. discriminate H.
Qed.

(** C2, as the code has it.  The exit status is 1 when the binary is
    missing.  On a one-shot command it is 1 when an error escapes or a
    failure line has been printed, and 0 otherwise.  In interactive mode it
    is 0 unless an error escapes, whatever has been reported, a failed
    [initialize] included. *)
Theorem exit_status_of_a_run w a :
  let r := run w a in
  exit_status r =
  if negb (path_exists w (binary a)) then 1%Z
  else if one_shot a
       then (if uncaught r || reports_failure (emitted r) then 1%Z else 0%Z)
       else (if uncaught r then 1%Z else 0%Z).
Proof.
  cbv zeta. destruct (path_exists w (binary a)) eqn:Hp; cbn [negb].
  - destruct (one_shot a) eqn:Ho.
    + unfold one_shot in Ho. destruct (command a) as [c|] eqn:Hc;
        [|discriminate Ho].
      destruct c; try discriminate Ho;
        try (rewrite (run_one_shot w a Hp Hc) by discriminate;
             apply exit_status_binary;
             [apply gate_status; intros st'; apply body_status
             |apply settled_gate; intros st'; apply settled_body;
              discriminate]).
      rewrite (run_init w a Hp Hc).
      apply exit_status_binary;
        [apply finish_status, (no_exit_perform w Initialize)
        |apply settled_finish;
         [apply (verdict_perform w Initialize)
         |apply (no_exit_perform w Initialize)]].
    + pose proof (run_interactive w a Hp Ho) as Hn.
      unfold exit_status, uncaught.
      destruct (outcome (run w a)) as [u|e]; [reflexivity|].
      cbn in Hn. now destruct e.
  - now rewrite run_missing_binary.
Qed.

(** The exit status does not follow the reported failures in interactive
    mode: with a binary that is there but answers nothing, [initialize] fails, the failure is reported, and the process
    still exits with status 0. *)
Lemma interactive_initialize_failure_exits_zero :
  let a := example_args (Some interactive) [] in
  let r := run mute_world a in
  outcome (initialize mute_world (start mute_world a)) = Ok false
  /\ reports_failure (emitted r) = true
  /\ exit_status r = 0%Z
  /\ exit_status r <> 1%Z.
Proof. vm_compute. repeat split. discriminate. Qed.

(** C3. Within one client instance the ids attached to the requests are
    1, 2, 3, ... in the order the requests are sent: strictly increasing,
    without repeats, the first one 1.  This holds for any sequence of
    Transport calls on a fresh client, and for all the requests of the
    client that a call of [main] builds. *)
Theorem request_ids_strictly_increase :
  (forall w path n keys calls,
     let l := ids (emitted (transport_calls w calls
                              {| self := __init__ path; spawned := n;
                                 stdin := keys |})) in
     length l = length calls
     /\ l = map Z.of_nat (seq 1 (length l))
     /\ StronglySorted Z.lt l /\ NoDup l
     /\ (forall i, hd_error l = Some i -> i = 1%Z))
  /\ (forall w a st,
        let l := ids (emitted (main w a st)) in
        l = map Z.of_nat (seq 1 (length l))
        /\ StronglySorted Z.lt l /\ NoDup l
        /\ (forall i, hd_error l = Some i -> i = 1%Z)).
Proof.
  split.
  - intros w path n keys calls l. split.
    + subst l.
      generalize {| self := __init__ path; spawned := n; stdin := keys |}.
      induction calls as [|[m p] calls IH]; intros st; [reflexivity|].
      cbn [transport_calls for_each fst snd]. unfold bind at 1 2.
      destruct (transport_step w m p st) as (Ha & Hr & _ & Ho).
      rewrite Ho. cbn [outcome after emitted ret].
      rewrite app_nil_r, ids_app, length_app. unfold ids at 1. rewrite Hr.
      cbn [map length Nat.add]. f_equal. apply IH.
    + apply numbered_from_zero;
        [apply disciplined_transport_calls | reflexivity].
  - intros w a st. destruct (path_exists w (binary a)) eqn:Hp.
    + destruct (main_with_client w a st Hp) as (serve & Hd & ->).
      now apply numbered_from_zero.
    + rewrite main_missing_binary by exact Hp. cbn.
      repeat split; try constructor. discriminate.
Qed.

(** C4. When the response that Transport hands back is a mapping without a
    [result] key, every intent prints its failure line and returns [False]
    without raising, and its outcome and everything it prints are what they
    are when Transport has failed and handed back [None]. *)
Theorem missing_result_is_reported_like_a_transport_failure w w' i st st' :
  lacks_result (answer w (spawned st)) ->
  transport_fails w' (spawned st') = true ->
  let r := perform w i st in
  let r' := perform w' i st' in
  outcome r = Ok false
  /\ In [Text (failure_message i)] (printed (emitted r))
  /\ outcome r = outcome r'
  /\ printed (emitted r) = printed (emitted r').
Proof.
  intros H H'. destruct (perform_without_result i) as (announce & Hi).
  destruct (Hi w st) as (Ho & _ & Hp); [now apply has_result_lacking|].
  destruct (Hi w' st') as (Ho' & _ & Hp');
    [now rewrite (transport_failure_is_none _ _ H')|].
  cbv zeta. rewrite Ho, Ho', Hp, Hp'. cbn. auto.
Qed.





(** C8. Every call of the Transport operation, whatever becomes of the
    subprocess (binary missing, another exception, no output, output that
    does not parse, a response), returns to its caller, moves the request-id
    counter up by exactly one and leaves the binary path as it was; the
    client object has these two fields and no other. *)
Theorem transport_moves_only_the_counter w method params st :
  let r := _run_mcp_request w method params st in
  self (after r) = {| mcp_binary_path := mcp_binary_path (self st);
                      request_id := request_id (self st) + 1 |}
  /\ request_id (self (after r)) = (request_id (self st) + 1)%Z
  /\ mcp_binary_path (self (after r)) = mcp_binary_path (self st)
  /\ exists response, outcome r = Ok response.
Proof.
  destruct (transport_step w method params st) as (Ha & _ & _ & Ho).
  cbv zeta. rewrite Ha, Ho. cbn. eauto.
Qed.

(** C9. An interactive line [create <name> <word>], two words after the
    command word, gets the usage message and nothing else: no request is
    sent and the client is left as it was. *)
Theorem one_word_description_is_refused w st name desc :
  token name -> token desc ->
  let line := lit "create " ++ name ++ [SPACE] ++ desc in
  interactive_command w (strip line) st =
  {| outcome := Ok Next; after := st; emitted := [Stdout [Text usage]] |}.
Proof.
  intros Hn Hd line.
  assert (Hs : strip line = line).
  { unfold strip, line. rewrite !app_assoc, rstrip_before_token by assumption.
    reflexivity. }
  rewrite Hs. unfold line. rewrite create_branch. cbv zeta.
  change (lit "create " ++ name ++ [SPACE] ++ desc)
    with (lit "create" ++ SPACE :: name ++ SPACE :: desc).
  rewrite split_first by (vm_compute; intuition discriminate).
  rewrite split_first by now apply token_no_space.
  rewrite split_whole by now apply token_no_space.
  cbn [length Nat.ltb Nat.leb item nth_error]. rewrite ret_bind.
  rewrite split_whole by now apply token_no_space.
  reflexivity.
Qed.

(** With two spaces after the command word the first split leaves an
    empty piece, the second split then finds the name and the one-word
    description, and the migration is created. *)
Lemma doubled_space_create_is_accepted :
  let st := at_call 1 [] in
  let r := interactive_command example_world
             (strip (lit "create  add_index index")) st in
  token (lit "add_index") /\ token (lit "index")
  /\ requests (emitted r) =
       [{| jsonrpc := lit "2.0"; id := 2; method := lit "tools/call";
           params := tool_call (lit "migration_create")
                       [(lit "name", JStr (lit "add_index"));
                        (lit "description", JStr (lit "index"))] |}]
  /\ ~ In (Stdout [Text usage]) (emitted r)
  /\ after r <> st.
Proof.
  intros st r.
  split; [split; [discriminate|reflexivity]|].
  split; [split; [discriminate|reflexivity]|].
  split; [vm_compute; reflexivity|].
  split; intros H; vm_compute in H; [intuition discriminate|discriminate H].
Qed.

(** C10. An empty-string version is no version: apply and rollback then run
    exactly as without a version, and the [arguments] of the request they
    send have no [version] key (they are the empty mapping). *)
Theorem empty_version_is_no_version w st :
  migration_up w (Some []) st = migration_up w None st
  /\ migration_down w (Some []) st = migration_down w None st
  /\ requests (emitted (migration_up w (Some []) st)) =
       [request_of st (lit "tools/call") (tool_call (lit "migration_up") [])]
  /\ requests (emitted (migration_down w (Some []) st)) =
       [request_of st (lit "tools/call") (tool_call (lit "migration_down") [])].
Proof.
  repeat split.
  - apply (migration_up_sends w (Some []) st).
  - apply (migration_down_sends w (Some []) st).
Qed.

(** * The claims at concrete inputs *)

(** The example server: its third run writes an empty mapping, its
    fourth cannot be started; [status] fails alike on both. *)
Lemma missing_result_is_reported_like_a_transport_failure_witness :
  let st := {| self := {| mcp_binary_path := default_binary; request_id := 2 |};
               spawned := 2; stdin := [] |} in
  let st' := {| self := {| mcp_binary_path := default_binary; request_id := 3 |};
                spawned := 3; stdin := [] |} in
  lacks_result (answer example_world (spawned st))
  /\ transport_fails example_world (spawned st') = true
  /\ (let r := perform example_world Status st in
      let r' := perform example_world Status st' in
      outcome r = Ok false
      /\ In [Text (failure_message Status)] (printed (emitted r))
      /\ outcome r = outcome r'
      /\ printed (emitted r) = printed (emitted r')).
Proof.
  intros st st'.
  assert (H : lacks_result (answer example_world (spawned st)))
    by (exists []; split; reflexivity).
  assert (H' : transport_fails example_world (spawned st') = true)
    by reflexivity.
  split; [exact H | split; [exact H' |]].
  exact (missing_result_is_reported_like_a_transport_failure
           example_world example_world Status st st' H H').
Defined.




(** The interactive line [create add_index index]. *)
Lemma one_word_description_is_refused_witness :
  let st := start example_world (example_args None []) in
  token (lit "add_index") /\ token (lit "index")
  /\ interactive_command example_world (strip (lit "create add_index index")) st
     = {| outcome := Ok Next; after := st; emitted := [Stdout [Text usage]] |}.
Proof.
  intros st.
  assert (Hn : token (lit "add_index")) by (split; [discriminate|reflexivity]).
  assert (Hd : token (lit "index")) by (split; [discriminate|reflexivity]).
  split; [exact Hn | split; [exact Hd |]].
  exact (one_word_description_is_refused example_world st Hn Hd).
Defined.

(** * Further properties of the code *)

(** ** Transport *)

(** X1. When the binary cannot be found at the moment it is started, the
    round trip raises nothing: it has tried one subprocess, writes the two
    lines about the missing binary on standard error, and hands back
    [None]. *)
Theorem transport_missing_binary w method params st :
  popen w (spawned st) = FileNotFoundError ->
  let r := _run_mcp_request w method params st in
  outcome r = Ok JNull
  /\ emitted r =
       [spawn_event st method params;
        Stderr [Text (lit "MCP binary not found at "
                      ++ mcp_binary_path (self st))];
        Stderr [Text (lit "Build the binary with: make build")]].
Proof.
  intros H. unfold _run_mcp_request, bind. cbn. rewrite H. now cbn.
Qed.

(** X2. When the subprocess writes nothing but whitespace on standard
    output, the round trip hands back [None] and its last word is the line
    that there is no response; the decoder is not asked. *)
Theorem transport_no_output w method params st stdout stderr :
  popen w (spawned st) = Communicated stdout stderr ->
  strip stdout = [] ->
  let r := _run_mcp_request w method params st in
  outcome r = Ok JNull
  /\ emitted r =
       spawn_event st method params :: warning stderr
       ++ [Stderr [Text (lit "No response from MCP server")]].
Proof.
  intros H Hout. unfold _run_mcp_request, bind, warning. cbn.
  rewrite H. cbn. rewrite Hout. destruct (strip stderr); now cbn.
Qed.

(** X3. When the output does not decode, the round trip hands back [None]
    after two lines on standard error: the decoder's message, and the raw
    output as the subprocess wrote it (not stripped). *)
Theorem transport_undecodable_output w method params st stdout stderr e :
  popen w (spawned st) = Communicated stdout stderr ->
  strip stdout <> [] ->
  json_loads w (strip stdout) = JSONDecodeError e ->
  let r := _run_mcp_request w method params st in
  outcome r = Ok JNull
  /\ emitted r =
       spawn_event st method params :: warning stderr
       ++ [Stderr [Text (lit "Failed to parse JSON response: " ++ e)];
           Stderr [Text (lit "Raw response: " ++ stdout)]].
Proof.
  intros H Hout He. unfold _run_mcp_request, bind, warning. cbn.
  rewrite H. cbn.
  destruct (strip stdout) as [|c out] eqn:E; [now contradiction Hout|].
  rewrite He. destruct (strip stderr); now cbn.
Qed.

(** X4. When the output decodes, the round trip hands back the decoded
    value, whatever it is; the decoder has been given the stripped output,
    and nothing is written but the warning about standard error, if any. *)
Theorem transport_decoded_output w method params st stdout stderr v :
  popen w (spawned st) = Communicated stdout stderr ->
  strip stdout <> [] ->
  json_loads w (strip stdout) = Loaded v ->
  let r := _run_mcp_request w method params st in
  outcome r = Ok v
  /\ emitted r = spawn_event st method params :: warning stderr.
Proof.
  intros H Hout Hv. unfold _run_mcp_request, bind, warning. cbn.
  rewrite H. cbn.
  destruct (strip stdout) as [|c out] eqn:E; [now contradiction Hout|].
  rewrite Hv. destruct (strip stderr); now cbn.
Qed.

(** X5. Whatever the subprocess wrote on standard error is shown, stripped,
    as a warning right after the subprocess has run, whether the round trip
    then succeeds or fails. *)
Theorem transport_shows_standard_error w method params st stdout stderr :
  popen w (spawned st) = Communicated stdout stderr ->
  strip stderr <> [] ->
  let r := _run_mcp_request w method params st in
  nth_error (emitted r) 1 =
    Some (Stderr [Text (lit "MCP Server Error: " ++ strip stderr)]).
Proof.
  intros H Herr. unfold _run_mcp_request, bind. cbn. rewrite H. cbn.
  destruct (strip stderr) as [|c err]; [now contradiction Herr|].
  destruct (strip stdout) as [|c' out]; [reflexivity|].
  destruct (json_loads w (c' :: out)); reflexivity.
Qed.

(** ** How the intents read a response *)

Lemma raise_bind A B e (k : A -> M B) st :
  bind (raise e) k st = {| outcome := Raise e; after := st; emitted := [] |}.
Proof. reflexivity. Qed.

(** A tool intent is an announcement, one round trip, and the common
    reading of the response. *)
Lemma tool_intent_shape w i :
  tool_intent i = true ->
  exists line,
    perform w i =
    (print line ;;
     response <- _run_mcp_request w (method_of i) (Some (params_of i)) ;;
     report_content response (default_text i) (failure_message i)).
Proof.
  destruct i as [| | |[[|c v]|]|[[|c v]|]|n d|]; intros H; try discriminate H;
    eexists; reflexivity.
Qed.

(** X6. A response that counts as false ([null], [false], [0], an empty
    string, list or mapping) is a failure for every intent: the intent
    prints its failure line and returns [False], and raises nothing. *)
Theorem falsy_response_is_failure w i st :
  truthy (answer w (spawned st)) = false ->
  let r := perform w i st in
  outcome r = Ok false
  /\ In [Text (failure_message i)] (printed (emitted r))
  /\ after r = next_state st.
Proof.
  intros H. destruct (perform_without_result i) as (announce & Hi).
  destruct (Hi w st) as (Ho & Ha & Hp).
  { unfold has_result. now rewrite H. }
  cbv zeta. rewrite Hp. cbn. auto.
Qed.

(** X7. A response whose [result] is anything but a mapping is not taken
    for a failure: the intent raises [AttributeError], after the line that
    announces it and without a failure line. *)
Theorem result_that_is_no_mapping_raises w i st d v :
  answer w (spawned st) = JDict d ->
  lookup (lit "result") d = Some v ->
  is_mapping v = false ->
  let r := perform w i st in
  outcome r = Raise AttributeError
  /\ length (printed (emitted r)) = 1%nat
  /\ after r = next_state st.
Proof.
  intros Hv Hres Hm.
  assert (Hget : forall key default, get v key default = Raise AttributeError)
    by (intros; destruct v; try reflexivity; discriminate Hm).
  destruct i as [| | |ver|ver|n de|]; cbn [perform];
    [unfold initialize|unfold list_tools|unfold migration_status
    |unfold migration_up|unfold migration_down|unfold create_migration
    |unfold list_migrations]; cbv zeta; rewrite announce_call_read;
    match goal with
    | |- context [emitted (_run_mcp_request w ?m ?p st)] =>
        destruct (transport_step w m p st) as (_ & _ & Hp & _)
    end;
    rewrite Hv; unfold report_content;
    rewrite (has_result_present _ Hres); cbn [lift];
    rewrite ?ret_bind; cbn iota; unfold getitem; rewrite Hres; cbn [lift];
    repeat (rewrite ?bind_assoc, ?ret_bind); rewrite Hget; cbn [lift];
    rewrite ?bind_assoc, raise_bind; cbn [outcome after emitted];
    change (printed (Stdout ?l :: ?t)) with (l :: printed t);
    rewrite printed_app, Hp; repeat split.
Qed.

Lemma report_content_default d res block more default failure st :
  lookup (lit "result") d = Some (JDict res) ->
  lookup (lit "content") res = Some (JList (JDict block :: more)) ->
  lookup (lit "text") block = None ->
  encodable default = true ->
  report_content (JDict d) default failure st =
  {| outcome := Ok true; after := st;
     emitted := [Stdout [Text (NL :: default)]] |}.
Proof.
  intros Hres Hcontent Htext He.
  unfold report_content. rewrite (has_result_present _ Hres). run_known.
  unfold getitem. rewrite Hres. run_known.
  unfold get at 1. rewrite Hcontent. run_known.
  unfold get. rewrite Htext. run_known. cbn [app].
  rewrite (print_decoded_encodable _ (encodable_line _ He)). reflexivity.
Qed.

(** X8. When the first content block of a tool result has no [text], the
    intent shows its own default text and still returns [True]. *)
Theorem missing_text_shows_the_default w i st d res block more :
  tool_intent i = true ->
  answer w (spawned st) = JDict d ->
  lookup (lit "result") d = Some (JDict res) ->
  lookup (lit "content") res = Some (JList (JDict block :: more)) ->
  lookup (lit "text") block = None ->
  let r := perform w i st in
  outcome r = Ok true
  /\ In (Stdout [Text (NL :: default_text i)]) (emitted r)
  /\ reports_failure (emitted r) = false.
Proof.
  intros Hi Hv Hres Hcontent Htext.
  assert (He : encodable (default_text i) = true) by now destruct i.
  pose proof (verdict_perform w i st) as Hverdict. cbv zeta in Hverdict.
  destruct (tool_intent_shape w i Hi) as (line & E). rewrite E in *.
  cbv zeta in *. rewrite announce_call_read in *. rewrite Hv in *.
  rewrite (report_content_default _ _ _ _ Hres Hcontent Htext He) in *.
  cbn [outcome emitted] in *. repeat split; [|exact Hverdict].
  right. apply in_or_app. right. now left.
Qed.

Lemma report_content_empty d res default failure st :
  lookup (lit "result") d = Some (JDict res) ->
  truthy (content_of res) = false ->
  report_content (JDict d) default failure st =
  {| outcome := Ok false; after := st; emitted := [Stdout [Text failure]] |}.
Proof.
  intros Hres Hc.
  unfold report_content. rewrite (has_result_present _ Hres). run_known.
  unfold getitem. rewrite Hres. run_known.
  unfold get at 1. fold (content_of res). run_known. rewrite Hc. run_known.
  reflexivity.
Qed.

(** X9. A tool result without content (the key missing, or its value
    [null] or empty) is a failure: the intent prints its failure line and
    returns [False]. *)
Theorem result_without_content_is_failure w i st d res :
  tool_intent i = true ->
  answer w (spawned st) = JDict d ->
  lookup (lit "result") d = Some (JDict res) ->
  truthy (content_of res) = false ->
  let r := perform w i st in
  outcome r = Ok false
  /\ In [Text (failure_message i)] (printed (emitted r)).
Proof.
  intros Hi Hv Hres Hc.
  destruct (tool_intent_shape w i Hi) as (line & ->). cbv zeta.
  rewrite announce_call_read, Hv, (report_content_empty _ _ _ _ Hres Hc).
  cbn [outcome emitted]. split; [reflexivity|].
  change (printed (Stdout ?l :: ?t)) with (l :: printed t).
  right. rewrite printed_app. apply in_or_app. right. now left.
Qed.

Ltac run_known_in E :=
  repeat first
    [ rewrite ret_bind in E
    | rewrite bind_assoc in E
    | progress cbn [lift truthy len length Nat.ltb Nat.leb getitem0 concat]
        in E ].

(** X10. When [initialize] is answered with a result whose name and
    version standard output can encode, the client greets the server by the
    name and version in its [serverInfo], or as [mongo-essential] and
    [unknown] where they are missing, and returns [True]. *)
Theorem initialize_greets_the_server w st d res info :
  answer w (spawned st) = JDict d ->
  lookup (lit "result") d = Some (JDict res) ->
  server_info_of res = Some info ->
  forallb encodable_frag (greeting info) = true ->
  let r := initialize w st in
  outcome r = Ok true
  /\ printed (emitted r) =
       [[Text (lit "Initializing MCP server...")];
        [Text (CHECK_MARK :: lit " Connected to ");
         Str match lookup (lit "name") info with
             | Some x => x
             | None => JStr (lit "mongo-essential")
             end;
         Text (lit " v");
         Str match lookup (lit "version") info with
             | Some x => x
             | None => JStr (lit "unknown")
             end]].
Proof.
  intros Hv Hres Hinfo He. unfold initialize. cbv zeta.
  rewrite announce_call_read.
  destruct (transport_step w (lit "initialize") None st) as (_ & _ & Hp & _).
  rewrite Hv.
  match goal with
  | |- context [emitted (?read (next_state st))] =>
      remember (read (next_state st)) as reading eqn:E
  end.
  rewrite (has_result_present _ Hres) in E. run_known.
  unfold getitem in E. rewrite Hres in E. cbn [lift] in E.
  rewrite !ret_bind in E. unfold get at 1 in E. unfold server_info_of in Hinfo.
  assert (E' : match lookup (lit "serverInfo") res with
               | Some x => x
               | None => JDict []
               end = JDict info).
  { destruct (lookup (lit "serverInfo") res) as [[]|]; try discriminate Hinfo;
      now inversion Hinfo. }
  rewrite E' in E. cbn [lift] in E. rewrite ret_bind in E.
  unfold get in E. cbn [lift] in E. rewrite !ret_bind in E.
  unfold greeting in He. rewrite (print_decoded_encodable _ He) in E.
  cbn [outcome emitted print emit bind ret app] in E. subst reading.
  cbn [outcome emitted].
  change (printed (Stdout ?l :: ?t)) with (l :: printed t).
  rewrite printed_app, Hp. now cbn.
Qed.

(** The same response with a name that holds a lone surrogate: nothing is
    printed after the announcement and [UnicodeEncodeError] escapes. *)
Lemma initialize_unencodable_name w st d res info :
  answer w (spawned st) = JDict d ->
  lookup (lit "result") d = Some (JDict res) ->
  server_info_of res = Some info ->
  forallb encodable_frag (greeting info) = false ->
  let r := initialize w st in
  outcome r = Raise UnicodeEncodeError
  /\ printed (emitted r) = [[Text (lit "Initializing MCP server...")]].
Proof.
  intros Hv Hres Hinfo He. unfold initialize. cbv zeta.
  rewrite announce_call_read.
  destruct (transport_step w (lit "initialize") None st) as (_ & _ & Hp & _).
  rewrite Hv.
  match goal with
  | |- context [emitted (?read (next_state st))] =>
      remember (read (next_state st)) as reading eqn:E
  end.
  rewrite (has_result_present _ Hres) in E. run_known.
  unfold getitem in E. rewrite Hres in E. cbn [lift] in E.
  rewrite !ret_bind in E. unfold get at 1 in E. unfold server_info_of in Hinfo.
  assert (E' : match lookup (lit "serverInfo") res with
               | Some x => x
               | None => JDict []
               end = JDict info).
  { destruct (lookup (lit "serverInfo") res) as [[]|]; try discriminate Hinfo;
      now inversion Hinfo. }
  rewrite E' in E. cbn [lift] in E. rewrite ret_bind in E.
  unfold get in E. cbn [lift] in E. rewrite !ret_bind in E.
  unfold greeting in He. unfold print_decoded in E. rewrite He in E.
  rewrite raise_bind in E. subst reading.
  cbn [outcome emitted].
  change (printed (Stdout ?l :: ?t)) with (l :: printed t).
  rewrite printed_app, Hp. now cbn.
Qed.

Lemma printed_map_stdout l : printed (map Stdout l) = l.
Proof.
  induction l as [|x l IH]; [reflexivity|]. cbn [map].
  change (printed (Stdout ?l :: ?t)) with (l :: printed t). now rewrite IH.
Qed.

Lemma tool_lines_printed tools st :
  forallb is_descriptor tools = true ->
  forallb (forallb encodable_frag) (flat_map tool_lines tools) = true ->
  for_each tools (fun tool =>
    name <- lift (getitem tool (lit "name")) ;;
    print_decoded [Text (WRENCH :: lit " "); Str name] ;;
    description <- lift (getitem tool (lit "description")) ;;
    print_decoded [Text (lit "   "); Str description] ;;
    print []) st
  = {| outcome := Ok tt; after := st;
       emitted := map Stdout (flat_map tool_lines tools) |}.
Proof.
  match goal with
  | |- context [for_each _ ?b] => set (body := b)
  end.
  induction tools as [|t tools IH]; intros H He; [reflexivity|].
  cbn [forallb] in H. apply andb_prop in H as [Ht H].
  cbn [flat_map] in He. rewrite forallb_app in He.
  apply andb_prop in He as [Hl He].
  assert (Hb : body t st =
               {| outcome := Ok tt; after := st;
                  emitted := map Stdout (tool_lines t) |}).
  { destruct t as [| | | | | |fields]; try discriminate Ht.
    cbn [is_descriptor] in Ht. unfold tool_lines, field in Hl.
    unfold body, getitem, tool_lines, field.
    destruct (lookup (lit "name") fields) as [n|]; [|discriminate Ht].
    destruct (lookup (lit "description") fields) as [de|]; [|discriminate Ht].
    change (forallb encodable_frag [Text (WRENCH :: lit " "); Str n]
            && (forallb encodable_frag [Text (lit "   "); Str de] && true)
            = true) in Hl.
    apply andb_prop in Hl as [H1 Hl]. apply andb_prop in Hl as [H2 _].
    cbn [lift]. rewrite ret_bind, (print_decoded_encodable _ H1).
    rewrite print_bind, ret_bind, (print_decoded_encodable _ H2).
    reflexivity. }
  cbn [for_each]. rewrite bind_run, Hb. cbn [outcome after emitted].
  rewrite (IH H He). cbn [outcome after emitted flat_map].
  now rewrite map_app.
Qed.

(** X11. When [tools/list] is answered with a list of descriptors whose
    names and descriptions standard output can encode, the client prints
    the header with their number, a rule, and for every tool its name, its
    description and an empty line, in the order of the list; a result
    without [tools] counts as an empty list.  It returns [True]. *)
Theorem list_tools_prints_every_tool w st d res tools :
  answer w (spawned st) = JDict d ->
  lookup (lit "result") d = Some (JDict res) ->
  tools_of res = Some tools ->
  forallb is_descriptor tools = true ->
  forallb (forallb encodable_frag) (flat_map tool_lines tools) = true ->
  let r := list_tools w st in
  outcome r = Ok true
  /\ printed (emitted r) =
       [Text (lit "Listing available tools...")]
       :: [Text (NL :: CLIPBOARD :: lit " Available Tools (");
           Str (JInt (Z.of_nat (length tools))); Text (lit "):")]
       :: [Text (repeat 0x3D%N 50)]
       :: flat_map tool_lines tools.
Proof.
  intros Hv Hres Htools Hall Henc. unfold list_tools. cbv zeta.
  rewrite announce_call_read.
  destruct (transport_step w (lit "tools/list") None st) as (_ & _ & Hp & _).
  rewrite Hv.
  match goal with
  | |- context [emitted (?read (next_state st))] =>
      remember (read (next_state st)) as reading eqn:E
  end.
  rewrite (has_result_present _ Hres) in E. cbn [lift] in E.
  rewrite ret_bind in E. unfold getitem at 1 in E. rewrite Hres in E.
  cbn [lift] in E. rewrite ret_bind in E.
  unfold get at 1 in E. unfold tools_of in Htools.
  assert (E' : match lookup (lit "tools") res with
               | Some x => x
               | None => JList []
               end = JList tools).
  { destruct (lookup (lit "tools") res) as [[]|]; try discriminate Htools;
      now inversion Htools. }
  rewrite E' in E. run_known_in E.
  rewrite !print_bind in E. cbn [iter lift] in E.
  rewrite ret_bind, bind_run in E.
  rewrite (tool_lines_printed _ _ Hall Henc) in E.
  cbn [outcome after emitted ret app] in E. rewrite app_nil_r in E.
  subst reading. cbn [outcome emitted]. split; [reflexivity|].
  change (printed (Stdout ?l :: ?t)) with (l :: printed t).
  rewrite printed_app, Hp. cbn [app].
  repeat change (printed (Stdout ?l :: ?t)) with (l :: printed t).
  now rewrite printed_map_stdout.
Qed.


(** X13. What an intent returns agrees with what it has printed: [True]
    comes with no failure line, [False] with one; and an intent never ends
    the process by itself (it never calls [sys.exit]). *)
Theorem intent_result_matches_its_report w i st :
  let r := perform w i st in
  match outcome r with
  | Ok b => reports_failure (emitted r) = negb b
  | Raise e => is_exit e = false
  end.
Proof.
  pose proof (verdict_perform w i st) as Hv.
  pose proof (no_exit_perform w i st) as Hn. cbv zeta in *.
  destruct (outcome (perform w i st)); [exact Hv | exact Hn].
Qed.

(** ** The turns of the interactive loop *)






Lemma prompt_bind A p (k : unit -> M A) st :
  bind (emit (Prompt p)) k st =
  {| outcome := outcome (k tt st); after := after (k tt st);
     emitted := Prompt p :: emitted (k tt st) |}.
Proof. reflexivity. Qed.

(** X15. A blank input line (empty, or whitespace only) is passed over:
    nothing is printed for it, not even the spacing line, nothing is sent,
    and the loop prompts for the next line. *)
Theorem blank_line_is_passed_over w s rest st :
  strip s = [] ->
  command_loop w (Line s :: rest) st =
  {| outcome := outcome (command_loop w rest st);
     after := after (command_loop w rest st);
     emitted := Prompt (lit "mcp> ") :: emitted (command_loop w rest st) |}.
Proof.
  intros H. cbn [command_loop]. rewrite prompt_bind, H.
  change (interactive_command w []) with (@ret flow Continue).
  now rewrite ret_bind.
Qed.

Lemma split_none sep s : split sep 0 s = [s].
Proof.
  induction s as [|c s IH]; [reflexivity|]. cbn [split Nat.ltb Nat.leb andb].
  now rewrite IH.
Qed.

Lemma then_next_requests A (m : M A) st :
  requests (emitted ((m ;; ret Next) st)) = requests (emitted (m st)).
Proof.
  rewrite bind_run. destruct (outcome (m st)); cbn [emitted ret];
    now rewrite ?app_nil_r.
Qed.

Lemma up_branch w v st :
  interactive_command w (lit "up " ++ v) st =
  (migration_up w (Some v) ;; ret Next) st.
Proof.
  change (interactive_command w (lit "up " ++ v))
    with (version <- item (split SPACE 1 (lit "up " ++ v)) 1 ;;
          migration_up w (Some version) ;; ret Next).
  change (split SPACE 1 (lit "up " ++ v)) with (lit "up" :: split SPACE 0 v).
  rewrite split_none. cbn [item nth_error]. now rewrite ret_bind.
Qed.

Lemma down_branch w v st :
  interactive_command w (lit "down " ++ v) st =
  (migration_down w (Some v) ;; ret Next) st.
Proof.
  change (interactive_command w (lit "down " ++ v))
    with (version <- item (split SPACE 1 (lit "down " ++ v)) 1 ;;
          migration_down w (Some version) ;; ret Next).
  change (split SPACE 1 (lit "down " ++ v))
    with (lit "down" :: split SPACE 0 v).
  rewrite split_none. cbn [item nth_error]. now rewrite ret_bind.
Qed.

(** X16. In interactive mode [up <text>] and [down <text>] pass as the
    version everything that follows the first space, further spaces
    included; one request is sent. *)
Theorem interactive_version_is_the_rest_of_the_line w v st :
  v <> [] ->
  requests (emitted (interactive_command w (lit "up " ++ v) st)) =
    [request_of st (lit "tools/call")
       (tool_call (lit "migration_up") [(lit "version", JStr v)])]
  /\ requests (emitted (interactive_command w (lit "down " ++ v) st)) =
    [request_of st (lit "tools/call")
       (tool_call (lit "migration_down") [(lit "version", JStr v)])].
Proof.
  intros Hv. rewrite up_branch, down_branch, !then_next_requests.
  destruct (migration_up_sends w (Some v) st) as [_ Hu].
  destruct (migration_down_sends w (Some v) st) as [_ Hd].
  rewrite Hu, Hd. destruct v; [now contradiction Hv|]. now split.
Qed.

(** X17. In interactive mode the line [create], exactly one space and one
    word (no whitespace in it) gets the usage message, and [create] alone is
    reported as an unknown command; neither sends a request.  (With more
    spaces before the word the splits leave empty pieces, and the line is
    read otherwise.) *)
Theorem interactive_create_without_description w st name :
  token name ->
  interactive_command w (strip (lit "create " ++ name)) st =
    {| outcome := Ok Next; after := st; emitted := [Stdout [Text usage]] |}
  /\ interactive_command w (strip (lit "create")) st =
    {| outcome := Ok Next; after := st;
       emitted := [Stdout [Text (lit "Unknown command: create"
                     ++ lit ". Type 'help' for available commands.")]] |}.
Proof.
  intros Hn. split; [|reflexivity].
  assert (Hs : strip (lit "create " ++ name) = lit "create " ++ name).
  { unfold strip. now rewrite rstrip_before_token. }
  rewrite Hs, create_branch. cbv zeta.
  change (lit "create " ++ name) with (lit "create" ++ SPACE :: name).
  rewrite split_first by (vm_compute; intuition discriminate).
  rewrite split_whole by now apply token_no_space.
  reflexivity.
Qed.

(** ** What every subprocess looks like *)

Section Guarded.

Variable path : pystr.
Variable P : event -> Prop.
Hypothesis P_stdout : forall l, P (Stdout l).
Hypothesis P_stderr : forall l, P (Stderr l).
Hypothesis P_spawn :
  forall q,
    jsonrpc q = lit "2.0" ->
    In (method q) [lit "initialize"; lit "tools/list"; lit "tools/call"] ->
    P (Spawn [path; lit "mcp"; lit "--with-examples"] q).

Lemma guarded_ret A (a : A) : guarded path P (ret a).
Proof. intros st H. cbn. repeat split; auto. Qed.

Lemma guarded_raise A e : guarded path P (@raise A e).
Proof. intros st H. cbn. repeat split; auto. Qed.

Lemma guarded_lift A (r : result A) : guarded path P (lift r).
Proof. destruct r; [apply guarded_ret | apply guarded_raise]. Qed.

Lemma guarded_item A (l : list A) i : guarded path P (item l i).
Proof.
  unfold item. destruct (nth_error l i);
    [apply guarded_ret | apply guarded_raise].
Qed.

Lemma guarded_print l : guarded path P (print l).
Proof. intros st H. cbn. repeat split; auto. Qed.

Lemma guarded_print_decoded l : guarded path P (print_decoded l).
Proof.
  unfold print_decoded. destruct (forallb encodable_frag l);
    [apply guarded_print | apply guarded_raise].
Qed.

Lemma guarded_pending : guarded path P pending.
Proof. intros st H. cbn. repeat split; auto. Qed.

Lemma guarded_leave rest : guarded path P (leave rest).
Proof. intros st H. cbn. repeat split; auto. Qed.

Lemma guarded_bind A B (m : M A) (k : A -> M B) :
  guarded path P m -> (forall a, guarded path P (k a)) ->
  guarded path P (bind m k).
Proof.
  intros Hm Hk st H. rewrite bind_run. specialize (Hm st H).
  cbv zeta in Hm. destruct Hm as (Hp & Hf & Hs).
  destruct (outcome (m st)) as [a|e]; cbn [outcome after emitted];
    [|now repeat split].
  specialize (Hk a (after (m st)) Hp). cbv zeta in Hk.
  destruct Hk as (Hp' & Hf' & Hs').
  repeat split; [exact Hp' | now apply Forall_app |].
  rewrite requests_app, length_app, Hs', Hs. lia.
Qed.

Lemma guarded_for_each A (l : list A) (body : A -> M unit) :
  (forall x, guarded path P (body x)) -> guarded path P (for_each l body).
Proof.
  intros Hb. induction l as [|x l IH]; simpl.
  - apply guarded_ret.
  - apply guarded_bind; auto.
Qed.

Lemma guarded_transport w method params :
  In method [lit "initialize"; lit "tools/list"; lit "tools/call"] ->
  guarded path P (_run_mcp_request w method params).
Proof.
  intros Hm st H.
  assert (Hq : P (spawn_event st method params))
    by (unfold spawn_event; rewrite H; now apply P_spawn).
  destruct (transport_step w method params st) as (Ha & Hr & _).
  cbv zeta. rewrite Hr, Ha. cbn [next_state self mcp_binary_path spawned length].
  repeat split; [exact H | | lia].
  revert Hq. unfold spawn_event, _run_mcp_request, bind. cbn.
  destruct (popen w (spawned st)) as [|e|out err]; cbn; intros Hq;
    [repeat constructor; auto..|].
  destruct (strip err); cbn;
    (destruct (strip out) as [|c out']; cbn; [repeat constructor; auto|];
     destruct (json_loads w (c :: out')); cbn; repeat constructor; auto).
Qed.

Ltac guards :=
  repeat first
    [ apply guarded_ret | apply guarded_raise | apply guarded_lift
    | apply guarded_item | apply guarded_print | apply guarded_print_decoded
    | apply guarded_pending
    | apply guarded_leave
    | apply guarded_transport; cbn; tauto
    | apply guarded_for_each; intros ?
    | apply guarded_bind; [| intros ?]
    | match goal with
      | |- guarded _ _ (if ?b then _ else _) => destruct b
      | |- guarded _ _ (match ?x with _ => _ end) => destruct x
      end ].

Lemma guarded_perform w i : guarded path P (perform w i).
Proof.
  destruct i; cbn [perform];
    [unfold initialize|unfold list_tools|unfold migration_status
    |unfold migration_up|unfold migration_down|unfold create_migration
    |unfold list_migrations]; unfold report_content; cbv zeta; guards.
Qed.

Hypothesis P_prompt : forall p, P (Prompt p).






End Guarded.


Lemma prompts_app t u : prompts (t ++ u) = prompts t ++ prompts u.
Proof. unfold prompts. apply flat_map_app. Qed.

Lemma prompts_none t : Forall no_prompt t -> prompts t = [].
Proof.
  induction 1 as [|e t He _ IH]; [reflexivity|].
  destruct e; cbn in *; auto. contradiction.
Qed.

Lemma initialize_never_prompts w st : prompts (emitted (initialize w st)) = [].
Proof.
  apply prompts_none.
  apply (@guarded_perform (mcp_binary_path (self st)) no_prompt
           (fun _ => I) (fun _ => I) (fun _ _ _ => I) w Initialize st).
  reflexivity.
Qed.

(** X19. When [initialize] fails at the start of interactive mode, the
    loop never starts: nothing is prompted for, no input is read, the
    [initialize] request is the only one sent, and [interactive_mode]
    returns. *)
Theorem failed_initialize_never_prompts w st :
  outcome (initialize w st) = Ok false ->
  let r := interactive_mode w st in
  outcome r = Ok tt
  /\ prompts (emitted r) = []
  /\ requests (emitted r) = [request_of st (lit "initialize") (JDict [])]
  /\ stdin (after r) = stdin st.
Proof.
  intros H. cbv zeta. unfold interactive_mode. rewrite !print_bind.
  cbn [outcome after emitted]. rewrite bind_run, H.
  destruct (initialize_sends w st) as [Ha Hr].
  cbn [negb ret outcome after emitted]. rewrite app_nil_r, Ha.
  repeat split; [|exact Hr].
  change (prompts (Stdout ?a :: Stdout ?b :: Stdout ?c :: ?t))
    with (prompts t).
  apply initialize_never_prompts.
Qed.

Lemma pending_bind A (k : list keystroke -> M A) st :
  bind pending k st = k (stdin st) st.
Proof. unfold bind, pending. cbn. now destruct (k (stdin st) st). Qed.

Lemma loop_ends_at_once w keys line rest st :
  loop_end keys = Some (line, rest) ->
  command_loop w keys st =
  {| outcome := Ok tt;
     after := {| self := self st; spawned := spawned st; stdin := rest |};
     emitted := [Prompt (lit "mcp> "); Stdout line] |}.
Proof.
  destruct keys as [|[s| |] keys]; cbn [loop_end]; intros H;
    try (inversion H; subst; reflexivity).
  destruct (mem_str (strip s) [lit "quit"; lit "exit"; lit "q"]) eqn:E;
    [|discriminate H].
  inversion H; subst. cbn [command_loop]. rewrite prompt_bind.
  unfold interactive_command. rewrite E. reflexivity.
Qed.

(** X20. An interactive session whose [initialize] succeeds and whose
    first input is [quit], [exit] or [q], an interrupt, or the end of
    input: the banner and the lines of [initialize] are followed by one
    prompt and one farewell line, nothing but [initialize] is sent, and
    [interactive_mode] returns, leaving the rest of the input unread. *)
Theorem session_that_ends_at_once w st line rest :
  outcome (initialize w st) = Ok true ->
  loop_end (stdin st) = Some (line, rest) ->
  let r := interactive_mode w st in
  outcome r = Ok tt
  /\ stdin (after r) = rest
  /\ prompts (emitted r) = [lit "mcp> "]
  /\ printed (emitted r) =
       [[Text (ROCKET
               :: lit " MongoDB Migration MCP Client - Interactive Mode")];
        [Text (lit "Type 'help' for available commands, 'quit' to exit")];
        []]
       ++ printed (emitted (initialize w st)) ++ [line]
  /\ requests (emitted r) = [request_of st (lit "initialize") (JDict [])].
Proof.
  intros H Hend. cbv zeta. unfold interactive_mode. rewrite !print_bind.
  cbn [outcome after emitted]. rewrite bind_run, H.
  destruct (initialize_sends w st) as [Ha Hr].
  cbn [negb]. rewrite pending_bind, Ha.
  change (stdin (next_state st)) with (stdin st).
  rewrite (loop_ends_at_once w _ (next_state st) Hend).
  cbn [outcome after emitted stdin]. repeat split.
  - change (prompts (Stdout ?a :: Stdout ?b :: Stdout ?c :: ?t))
      with (prompts t).
    now rewrite prompts_app, initialize_never_prompts.
  - repeat change (printed (Stdout ?l :: ?t)) with (l :: printed t).
    now rewrite printed_app.
  - cbn [requests]. rewrite requests_app, Hr. reflexivity.
Qed.

(** ** One-shot commands, and the second call of [main] *)

(** X21. The one-shot [create] with fewer than two arguments, once the
    implicit [initialize] has succeeded: the usage line is printed, the exit
    status is 1, and no request but [initialize] has been sent. *)
Theorem one_shot_create_needs_two_arguments w a :
  command a = Some create ->
  (length (args a) < 2)%nat ->
  path_exists w (binary a) = true ->
  outcome (initialize w (start w a)) = Ok true ->
  let r := run w a in
  requests (emitted r) = [initialize_request]
  /\ exit_status r = 1%Z
  /\ In [Text usage] (printed (emitted r)).
Proof.
  intros Hc Hl Hp Hi. cbv zeta.
  rewrite (run_one_shot w a Hp Hc) by discriminate.
  rewrite bind_run, gate_run. cbn [outcome after emitted]. rewrite Hi.
  rewrite finish_run. cbn [body].
  apply Nat.ltb_lt in Hl. rewrite Hl.
  destruct (initialize_sends w (start w a)) as [_ Hq].
  cbn [outcome after emitted bind print emit sys_exit raise].
  rewrite requests_app, Hq, printed_app. repeat split.
  apply in_or_app. right. now left.
Qed.


(** X23. The one-shot [init] calls [initialize] once, not twice: one
    request is sent, and the exit status is 0 exactly when that call
    returns [True], and 1 otherwise. *)
Theorem one_shot_init_calls_initialize_once w a :
  command a = Some init ->
  path_exists w (binary a) = true ->
  let r := run w a in
  requests (emitted r) = [initialize_request]
  /\ (exit_status r = 0%Z <-> outcome (initialize w (start w a)) = Ok true)
  /\ (exit_status r = 0%Z \/ exit_status r = 1%Z).
Proof.
  intros Hc Hp. cbv zeta. rewrite (run_init w a Hp Hc), finish_run.
  destruct (initialize_sends w (start w a)) as [_ Hq].
  pose proof (no_exit_perform w Initialize (start w a)) as Hn.
  cbn [perform] in Hn. unfold exit_status. cbn [outcome emitted].
  split; [exact Hq|].
  destruct (outcome (initialize w (start w a))) as [[|]|e].
  - split; [split; reflexivity | now left].
  - split; [split; discriminate | now right].
  - cbn in Hn. destruct e; try discriminate Hn;
      (split; [split; discriminate | now right]).
Qed.

(** X24. On a one-shot command [main] never returns: it always leaves
    through [sys.exit] or an error, so the second call of [main] at the end
    of the file is not reached and the run is the first call alone. *)
Theorem one_shot_main_never_returns w a :
  one_shot a = true ->
  (forall st, exists e, outcome (main w a st) = Raise e)
  /\ run w a = main w a (boot w).
Proof.
  intros Ho.
  assert (H : forall st, exists e, outcome (main w a st) = Raise e).
  { intros st. destruct (path_exists w (binary a)) eqn:Hp;
      [|rewrite main_missing_binary by exact Hp; cbn [outcome]; eauto].
    unfold one_shot in Ho. destruct (command a) as [c|] eqn:Hc;
      [|discriminate Ho].
    assert (Hf : forall m st', exists e, outcome (finish m st') = Raise e).
    { intros m st'. rewrite finish_run. cbn [outcome].
      destruct (outcome (m st')) as [[|]|e]; eauto. }
    destruct c; try discriminate Ho;
      try (rewrite (main_one_shot w a st Hp Hc) by discriminate;
           rewrite bind_run, gate_run; cbn [outcome after emitted];
           destruct (outcome (initialize w (fresh a st))) as [[|]|e];
           cbn [outcome]; eauto; apply Hf).
    rewrite (main_init w a st Hp Hc). apply Hf. }
  split; [exact H|]. destruct (H (boot w)) as [e He].
  exact (run_first_call w a He).
Qed.

Lemma interactive_mode_first_request w st :
  exists rest,
    requests (emitted (interactive_mode w st)) =
    request_of st (lit "initialize") (JDict []) :: rest.
Proof.
  unfold interactive_mode. rewrite !print_bind. cbn [emitted requests].
  rewrite bind_run. destruct (initialize_sends w st) as [_ Hq].
  destruct (outcome (initialize w st)); cbn [emitted].
  - rewrite requests_app, Hq. cbn [app]. eauto.
  - rewrite Hq. eauto.
Qed.

(** X25. In interactive mode the run is two sessions: when the first call
    of [interactive_mode] returns, [main] is called again, builds a new
    client and runs a second session on the input that is left, whose first
    request is again [initialize] with id 1. *)
Theorem interactive_mode_runs_twice w a :
  path_exists w (binary a) = true ->
  one_shot a = false ->
  outcome (interactive_mode w (start w a)) = Ok tt ->
  let first := interactive_mode w (start w a) in
  let second := interactive_mode w (fresh a (after first)) in
  emitted (run w a) = emitted first ++ emitted second
  /\ outcome (run w a) = outcome second
  /\ exists rest, requests (emitted second) = initialize_request :: rest.
Proof.
  intros Hp Ho H1. cbv zeta. unfold run, __main__. rewrite bind_run.
  rewrite !(main_interactive w a _ Hp Ho).
  change (fresh a (boot w)) with (start w a). rewrite H1.
  cbn [outcome emitted]. repeat split.
  apply interactive_mode_first_request.
Qed.

(** * The further properties at concrete inputs *)

(** The example server cannot be started a fourth time. *)
Lemma transport_missing_binary_witness :
  let st := at_call 3 [] in
  popen example_world (spawned st) = FileNotFoundError
  /\ (let r := _run_mcp_request example_world (lit "initialize") None st in
      outcome r = Ok JNull
      /\ emitted r =
           [spawn_event st (lit "initialize") None;
            Stderr [Text (lit "MCP binary not found at "
                          ++ mcp_binary_path (self st))];
            Stderr [Text (lit "Build the binary with: make build")]]).
Proof.
  intros st.
  assert (H : popen example_world (spawned st) = FileNotFoundError)
    by reflexivity.
  split; [exact H|].
  exact (transport_missing_binary example_world (lit "initialize") None st H).
Defined.

(** The mute server writes nothing. *)
Lemma transport_no_output_witness :
  let st := at_call 0 [] in
  popen mute_world (spawned st) = Communicated [] []
  /\ strip [] = []
  /\ (let r := _run_mcp_request mute_world (lit "initialize") None st in
      outcome r = Ok JNull
      /\ emitted r =
           spawn_event st (lit "initialize") None :: warning []
           ++ [Stderr [Text (lit "No response from MCP server")]]).
Proof.
  intros st.
  assert (H : popen mute_world (spawned st) = Communicated [] [])
    by reflexivity.
  assert (H' : strip [] = []) by reflexivity.
  split; [exact H | split; [exact H'|]].
  exact (transport_no_output mute_world (lit "initialize") None st H H').
Defined.

(** The fifth run of the sample server writes words that are no JSON. *)
Lemma transport_undecodable_output_witness :
  let st := at_call 4 [] in
  let stdout := lit "panic" ++ [NL] in
  let stderr := lit "  no database" ++ [NL] in
  let e := lit "Expecting value: line 1 column 1 (char 0)" in
  popen sample_world (spawned st) = Communicated stdout stderr
  /\ strip stdout <> []
  /\ json_loads sample_world (strip stdout) = JSONDecodeError e
  /\ (let r := _run_mcp_request sample_world (lit "tools/list") None st in
      outcome r = Ok JNull
      /\ emitted r =
           spawn_event st (lit "tools/list") None :: warning stderr
           ++ [Stderr [Text (lit "Failed to parse JSON response: " ++ e)];
               Stderr [Text (lit "Raw response: " ++ stdout)]]).
Proof.
  intros st stdout stderr e.
  assert (H1 : popen sample_world (spawned st) = Communicated stdout stderr)
    by reflexivity.
  assert (H2 : strip stdout <> []) by discriminate.
  assert (H3 : json_loads sample_world (strip stdout) = JSONDecodeError e)
    by reflexivity.
  split; [exact H1 | split; [exact H2 | split; [exact H3|]]].
  exact (transport_undecodable_output sample_world (lit "tools/list") None st
           H1 H2 H3).
Defined.

(** The first run of the example server answers [initialize]. *)
Lemma transport_decoded_output_witness :
  let st := at_call 0 [] in
  let stdout := initialized_text ++ [NL] in
  let v := JDict [(lit "result", JDict [])] in
  popen example_world (spawned st) = Communicated stdout []
  /\ strip stdout <> []
  /\ json_loads example_world (strip stdout) = Loaded v
  /\ (let r := _run_mcp_request example_world (lit "initialize") None st in
      outcome r = Ok v
      /\ emitted r = spawn_event st (lit "initialize") None :: warning []).
Proof.
  intros st stdout v.
  assert (H1 : popen example_world (spawned st) = Communicated stdout [])
    by reflexivity.
  assert (H2 : strip stdout <> []) by discriminate.
  assert (H3 : json_loads example_world (strip stdout) = Loaded v)
    by reflexivity.
  split; [exact H1 | split; [exact H2 | split; [exact H3|]]].
  exact (transport_decoded_output example_world (lit "initialize") None st
           H1 H2 H3).
Defined.

(** The fifth run of the sample server complains on standard error. *)
Lemma transport_shows_standard_error_witness :
  let st := at_call 4 [] in
  let stdout := lit "panic" ++ [NL] in
  let stderr := lit "  no database" ++ [NL] in
  popen sample_world (spawned st) = Communicated stdout stderr
  /\ strip stderr <> []
  /\ nth_error
       (emitted (_run_mcp_request sample_world (lit "tools/list") None st)) 1
     = Some (Stderr [Text (lit "MCP Server Error: " ++ strip stderr)]).
Proof.
  intros st stdout stderr.
  assert (H1 : popen sample_world (spawned st) = Communicated stdout stderr)
    by reflexivity.
  assert (H2 : strip stderr <> []) by discriminate.
  split; [exact H1 | split; [exact H2|]].
  exact (transport_shows_standard_error sample_world (lit "tools/list") None
           st H1 H2).
Defined.

(** The third run of the example server writes an empty mapping. *)
Lemma falsy_response_is_failure_witness :
  let st := at_call 2 [] in
  truthy (answer example_world (spawned st)) = false
  /\ (let r := perform example_world ListMigrations st in
      outcome r = Ok false
      /\ In [Text (failure_message ListMigrations)] (printed (emitted r))
      /\ after r = next_state st).
Proof.
  intros st.
  assert (H : truthy (answer example_world (spawned st)) = false)
    by reflexivity.
  split; [exact H|].
  exact (falsy_response_is_failure example_world ListMigrations st H).
Defined.

(** The first run of the sample server answers with a number for a
    result. *)
Lemma result_that_is_no_mapping_raises_witness :
  let st := at_call 0 [] in
  let d := [(lit "result", JInt 5)] in
  answer sample_world (spawned st) = JDict d
  /\ lookup (lit "result") d = Some (JInt 5)
  /\ is_mapping (JInt 5) = false
  /\ (let r := perform sample_world Status st in
      outcome r = Raise AttributeError
      /\ length (printed (emitted r)) = 1%nat
      /\ after r = next_state st).
Proof.
  intros st d.
  assert (H1 : answer sample_world (spawned st) = JDict d) by reflexivity.
  assert (H2 : lookup (lit "result") d = Some (JInt 5)) by reflexivity.
  assert (H3 : is_mapping (JInt 5) = false) by reflexivity.
  split; [exact H1 | split; [exact H2 | split; [exact H3|]]].
  exact (result_that_is_no_mapping_raises sample_world Status st H1 H2 H3).
Defined.

(** The second run of the sample server answers with a content block that
    has no text. *)
Lemma missing_text_shows_the_default_witness :
  let st := at_call 1 [] in
  let res := [(lit "content", JList [JDict []])] in
  let d := [(lit "result", JDict res)] in
  tool_intent Status = true
  /\ answer sample_world (spawned st) = JDict d
  /\ lookup (lit "result") d = Some (JDict res)
  /\ lookup (lit "content") res = Some (JList [JDict []])
  /\ lookup (lit "text") [] = None
  /\ (let r := perform sample_world Status st in
      outcome r = Ok true
      /\ In (Stdout [Text (NL :: default_text Status)]) (emitted r)
      /\ reports_failure (emitted r) = false).
Proof.
  intros st res d.
  assert (H1 : tool_intent Status = true) by reflexivity.
  assert (H2 : answer sample_world (spawned st) = JDict d) by reflexivity.
  assert (H3 : lookup (lit "result") d = Some (JDict res)) by reflexivity.
  assert (H4 : lookup (lit "content") res = Some (JList [JDict []]))
    by reflexivity.
  assert (H5 : lookup (lit "text") [] = None) by reflexivity.
  repeat (split; [assumption|]).
  exact (missing_text_shows_the_default sample_world Status st
           H1 H2 H3 H4 H5).
Defined.

(** The first run of the example server answers with an empty result. *)
Lemma result_without_content_is_failure_witness :
  let st := at_call 0 [] in
  let d := [(lit "result", JDict [])] in
  tool_intent (Apply None) = true
  /\ answer example_world (spawned st) = JDict d
  /\ lookup (lit "result") d = Some (JDict [])
  /\ truthy (content_of []) = false
  /\ (let r := perform example_world (Apply None) st in
      outcome r = Ok false
      /\ In [Text (failure_message (Apply None))] (printed (emitted r))).
Proof.
  intros st d.
  assert (H1 : tool_intent (Apply None) = true) by reflexivity.
  assert (H2 : answer example_world (spawned st) = JDict d) by reflexivity.
  assert (H3 : lookup (lit "result") d = Some (JDict [])) by reflexivity.
  assert (H4 : truthy (content_of []) = false) by reflexivity.
  repeat (split; [assumption|]).
  exact (result_without_content_is_failure example_world (Apply None) st
           H1 H2 H3 H4).
Defined.

(** The fourth run of the sample server answers with its name and
    version. *)
Lemma initialize_greets_the_server_witness :
  let st := at_call 3 [] in
  let res := [(lit "serverInfo", JDict sample_info)] in
  let d := [(lit "result", JDict res)] in
  answer sample_world (spawned st) = JDict d
  /\ lookup (lit "result") d = Some (JDict res)
  /\ server_info_of res = Some sample_info
  /\ forallb encodable_frag (greeting sample_info) = true
  /\ (let r := initialize sample_world st in
      outcome r = Ok true
      /\ printed (emitted r) =
           [[Text (lit "Initializing MCP server...")];
            [Text (CHECK_MARK :: lit " Connected to ");
             Str (JStr (lit "mongo-essential"));
             Text (lit " v");
             Str (JStr (lit "1.2.0"))]]).
Proof.
  intros st res d.
  assert (H1 : answer sample_world (spawned st) = JDict d) by reflexivity.
  assert (H2 : lookup (lit "result") d = Some (JDict res)) by reflexivity.
  assert (H3 : server_info_of res = Some sample_info) by reflexivity.
  assert (H4 : forallb encodable_frag (greeting sample_info) = true)
    by reflexivity.
  repeat (split; [assumption|]).
  exact (initialize_greets_the_server sample_world st H1 H2 H3 H4).
Defined.

(** The third run of the sample server answers with a list of one tool. *)
Lemma list_tools_prints_every_tool_witness :
  let st := at_call 2 [] in
  let res := [(lit "tools", JList [status_tool])] in
  let d := [(lit "result", JDict res)] in
  answer sample_world (spawned st) = JDict d
  /\ lookup (lit "result") d = Some (JDict res)
  /\ tools_of res = Some [status_tool]
  /\ forallb is_descriptor [status_tool] = true
  /\ forallb (forallb encodable_frag) (flat_map tool_lines [status_tool])
     = true
  /\ (let r := list_tools sample_world st in
      outcome r = Ok true
      /\ printed (emitted r) =
           [Text (lit "Listing available tools...")]
           :: [Text (NL :: CLIPBOARD :: lit " Available Tools (");
               Str (JInt 1); Text (lit "):")]
           :: [Text (repeat 0x3D%N 50)]
           :: flat_map tool_lines [status_tool]).
Proof.
  intros st res d.
  assert (H1 : answer sample_world (spawned st) = JDict d) by reflexivity.
  assert (H2 : lookup (lit "result") d = Some (JDict res)) by reflexivity.
  assert (H3 : tools_of res = Some [status_tool]) by reflexivity.
  assert (H4 : forallb is_descriptor [status_tool] = true) by reflexivity.
  assert (H5 : forallb (forallb encodable_frag)
                 (flat_map tool_lines [status_tool]) = true) by reflexivity.
  repeat (split; [assumption|]).
  exact (list_tools_prints_every_tool sample_world st H1 H2 H3 H4 H5).
Defined.

(** A line of three spaces, before [quit]. *)
Lemma blank_line_is_passed_over_witness :
  let st := at_call 1 [] in
  let rest := [Line (lit "quit")] in
  strip (lit "   ") = []
  /\ command_loop example_world (Line (lit "   ") :: rest) st =
     {| outcome := outcome (command_loop example_world rest st);
        after := after (command_loop example_world rest st);
        emitted := Prompt (lit "mcp> ")
                   :: emitted (command_loop example_world rest st) |}.
Proof.
  intros st rest.
  assert (H : strip (lit "   ") = []) by reflexivity.
  split; [exact H|].
  exact (blank_line_is_passed_over example_world (lit "   ") rest st H).
Defined.

(** The lines [up 2024 01] and [down 2024 01]. *)
Lemma interactive_version_is_the_rest_of_the_line_witness :
  let st := at_call 1 [] in
  let v := lit "2024 01" in
  v <> []
  /\ requests (emitted (interactive_command example_world (lit "up " ++ v) st))
     = [request_of st (lit "tools/call")
          (tool_call (lit "migration_up") [(lit "version", JStr v)])]
  /\ requests
       (emitted (interactive_command example_world (lit "down " ++ v) st))
     = [request_of st (lit "tools/call")
          (tool_call (lit "migration_down") [(lit "version", JStr v)])].
Proof.
  intros st v.
  assert (H : v <> []) by discriminate.
  split; [exact H|].
  exact (interactive_version_is_the_rest_of_the_line example_world st H).
Defined.

(** The line [create add_index]. *)
Lemma interactive_create_without_description_witness :
  let st := at_call 1 [] in
  token (lit "add_index")
  /\ interactive_command example_world (strip (lit "create add_index")) st =
     {| outcome := Ok Next; after := st; emitted := [Stdout [Text usage]] |}
  /\ interactive_command example_world (strip (lit "create")) st =
     {| outcome := Ok Next; after := st;
        emitted := [Stdout [Text (lit "Unknown command: create"
                      ++ lit ". Type 'help' for available commands.")]] |}.
Proof.
  intros st.
  assert (H : token (lit "add_index")) by (split; [discriminate|reflexivity]).
  split; [exact H|].
  exact (interactive_create_without_description example_world st H).
Defined.

(** Interactive mode against the mute server. *)
Lemma failed_initialize_never_prompts_witness :
  let st := at_call 0 [Line (lit "status")] in
  outcome (initialize mute_world st) = Ok false
  /\ (let r := interactive_mode mute_world st in
      outcome r = Ok tt
      /\ prompts (emitted r) = []
      /\ requests (emitted r) = [request_of st (lit "initialize") (JDict [])]
      /\ stdin (after r) = stdin st).
Proof.
  intros st.
  assert (H : outcome (initialize mute_world st) = Ok false) by reflexivity.
  split; [exact H|].
  exact (failed_initialize_never_prompts mute_world st H).
Defined.

(** Interactive mode against the example server, [quit] typed at once. *)
Lemma session_that_ends_at_once_witness :
  let st := at_call 0 [Line (lit "quit"); Line (lit "status")] in
  let line := [Text (lit "Goodbye! " ++ [WAVING_HAND])] in
  let rest := [Line (lit "status")] in
  outcome (initialize example_world st) = Ok true
  /\ loop_end (stdin st) = Some (line, rest)
  /\ (let r := interactive_mode example_world st in
      outcome r = Ok tt
      /\ stdin (after r) = rest
      /\ prompts (emitted r) = [lit "mcp> "]
      /\ printed (emitted r) =
           [[Text (ROCKET
                   :: lit " MongoDB Migration MCP Client - Interactive Mode")];
            [Text (lit "Type 'help' for available commands, 'quit' to exit")];
            []]
           ++ printed (emitted (initialize example_world st)) ++ [line]
      /\ requests (emitted r) =
           [request_of st (lit "initialize") (JDict [])]).
Proof.
  intros st line rest.
  assert (H1 : outcome (initialize example_world st) = Ok true)
    by reflexivity.
  assert (H2 : loop_end (stdin st) = Some (line, rest)) by reflexivity.
  split; [exact H1 | split; [exact H2|]].
  exact (session_that_ends_at_once example_world st H1 H2).
Defined.

(** The command [create add_index], without a description. *)
Lemma one_shot_create_needs_two_arguments_witness :
  let a := example_args (Some create) [lit "add_index"] in
  command a = Some create
  /\ (length (args a) < 2)%nat
  /\ path_exists example_world (binary a) = true
  /\ outcome (initialize example_world (start example_world a)) = Ok true
  /\ (let r := run example_world a in
      requests (emitted r) = [initialize_request]
      /\ exit_status r = 1%Z
      /\ In [Text usage] (printed (emitted r))).
Proof.
  intros a.
  assert (H1 : command a = Some create) by reflexivity.
  assert (H2 : (length (args a) < 2)%nat) by (cbn; lia).
  assert (H3 : path_exists example_world (binary a) = true) by reflexivity.
  assert (H4 : outcome (initialize example_world (start example_world a))
               = Ok true) by reflexivity.
  repeat (split; [assumption|]).
  exact (one_shot_create_needs_two_arguments example_world a H1 H2 H3 H4).
Defined.


(** The command [init] against the example server. *)
Lemma one_shot_init_calls_initialize_once_witness :
  let a := example_args (Some init) [] in
  command a = Some init
  /\ path_exists example_world (binary a) = true
  /\ (let r := run example_world a in
      requests (emitted r) = [initialize_request]
      /\ (exit_status r = 0%Z
          <-> outcome (initialize example_world (start example_world a))
              = Ok true)
      /\ (exit_status r = 0%Z \/ exit_status r = 1%Z)).
Proof.
  intros a.
  assert (H1 : command a = Some init) by reflexivity.
  assert (H2 : path_exists example_world (binary a) = true) by reflexivity.
  repeat (split; [assumption|]).
  exact (one_shot_init_calls_initialize_once example_world a H1 H2).
Defined.

(** The command [status]. *)
Lemma one_shot_main_never_returns_witness :
  let a := example_args (Some status) [] in
  one_shot a = true
  /\ (forall st, exists e, outcome (main example_world a st) = Raise e)
  /\ run example_world a = main example_world a (boot example_world).
Proof.
  intros a.
  assert (H : one_shot a = true) by reflexivity.
  split; [exact H|].
  exact (one_shot_main_never_returns example_world a H).
Defined.

(** Interactive mode against the example server: [status], then [quit]. *)
Lemma interactive_mode_runs_twice_witness :
  let w := example_world in
  let a := example_args None [] in
  path_exists w (binary a) = true
  /\ one_shot a = false
  /\ outcome (interactive_mode w (start w a)) = Ok tt
  /\ (let first := interactive_mode w (start w a) in
      let second := interactive_mode w (fresh a (after first)) in
      emitted (run w a) = emitted first ++ emitted second
      /\ outcome (run w a) = outcome second
      /\ exists rest, requests (emitted second) = initialize_request :: rest).
Proof.
  intros w a.
  assert (H1 : path_exists w (binary a) = true) by reflexivity.
  assert (H2 : one_shot a = false) by reflexivity.
  assert (H3 : outcome (interactive_mode w (start w a)) = Ok tt)
    by (vm_compute; reflexivity).
  repeat (split; [assumption|]).
  exact (interactive_mode_runs_twice w a H1 H2 H3).
Defined.
